(** * Rule 303 / 304 scanner: SET EXTENDED CHECK and BREAK-POINT

    A shallow embedding of [app/app.py]: the two compiled patterns, the
    helpers [extract_line] and [make_finding], the scan of one unit
    ([scan_unit]) and the two endpoints built on it ([scan_array],
    [scan_single]), followed by the properties the specification states
    about them.

    Python [str] values are sequences of Unicode code points, [int] is
    unbounded: a string is a [list N], a line number is a [Z]. *)

From Stdlib Require Import List ZArith NArith Lia Bool Ascii String Sorted.
Import ListNotations.

Set Implicit Arguments.

(** ** Python strings *)

Module PyStr.

Definition pystr := list N.

(** A string literal of the source, as code points. *)
Definition str (s : string) : pystr :=
  List.map N_of_ascii (list_ascii_of_string s).

(** The line feed ["\n"] and the backslash. *)
Definition LF : N := 10%N.
Definition CR : N := 13%N.
Definition BACKSLASH : N := 92%N.

Definition len (s : pystr) : Z := Z.of_nat (List.length s).

(** Slice index adjustment of Python: a negative index counts from the
    end, and the result is clipped to [0 .. len s]. *)
Definition clip (s : pystr) (i : Z) : nat :=
  if (i <? 0)%Z then Z.to_nat (Z.max 0 (i + len s))
  else Z.to_nat (Z.min i (len s)).

(** [s[a:b]] *)
Definition slice (s : pystr) (a b : Z) : pystr :=
  firstn (clip s b - clip s a) (skipn (clip s a) s).

(** Index of the first, and of the last, occurrence of [c] in a list. *)
Fixpoint index_of (c : N) (s : pystr) : option nat :=
  match s with
  | [] => None
  | x :: tl =>
      if N.eqb x c then Some 0
      else match index_of c tl with
           | Some i => Some (S i)
           | None => None
           end
  end.

Fixpoint last_index_of (c : N) (s : pystr) : option nat :=
  match s with
  | [] => None
  | x :: tl =>
      match last_index_of c tl with
      | Some i => Some (S i)
      | None => if N.eqb x c then Some 0 else None
      end
  end.

(** [s.find(c, start)] for a one-character needle: lowest index at or
    after [start], [-1] when there is none. *)
Definition find (s : pystr) (c : N) (start : Z) : Z :=
  match index_of c (skipn (clip s start) s) with
  | Some i => Z.of_nat (clip s start + i)
  | None => (-1)%Z
  end.

(** [s.rfind(c, lo, hi)] for a one-character needle: highest index inside
    [s[lo:hi]], [-1] when there is none. *)
Definition rfind (s : pystr) (c : N) (lo hi : Z) : Z :=
  match last_index_of c (slice s lo hi) with
  | Some i => Z.of_nat (clip s lo + i)
  | None => (-1)%Z
  end.

(** [s.count(c, lo, hi)] for a one-character needle. *)
Definition count (s : pystr) (c : N) (lo hi : Z) : Z :=
  Z.of_nat (count_occ N.eq_dec (slice s lo hi) c).

(** [s.replace(c, by)] for a one-character needle. *)
Definition replace (s : pystr) (c : N) (by_ : pystr) : pystr :=
  flat_map (fun x => if N.eqb x c then by_ else [x]) s.

Definition eqb (a b : pystr) : bool :=
  if list_eq_dec N.eq_dec a b then true else false.

End PyStr.

Import PyStr.

(** ** The regular-expression engine, as far as the two patterns use it

    Both patterns are compiled with [re.IGNORECASE] on [str] patterns, so
    character classes and case folding are Unicode ones. *)

Module Re.

(** [\s]: the white space of [str.isspace], the complete list. *)
Definition is_space (c : N) : bool :=
  existsb (N.eqb c)
    [9; 10; 11; 12; 13; 28; 29; 30; 31; 32; 133; 160; 5760;
     8192; 8193; 8194; 8195; 8196; 8197; 8198; 8199; 8200; 8201; 8202;
     8232; 8233; 8239; 8287; 12288]%N.

Definition ascii_upper (c : N) : bool := ((65 <=? c) && (c <=? 90))%N.
Definition ascii_lower (c : N) : bool := ((97 <=? c) && (c <=? 122))%N.
Definition ascii_digit (c : N) : bool := ((48 <=? c) && (c <=? 57))%N.

(** The four letters outside ASCII that fold onto a letter of the two
    patterns: capital I with dot above, dotless i, long s, Kelvin sign. *)
Definition I_DOT : N := 304%N.
Definition DOTLESS_I : N := 305%N.
Definition LONG_S : N := 383%N.
Definition KELVIN : N := 8490%N.

(** [_sre.unicode_tolower], tabulated on the code points whose image is
    an ASCII letter: [A]..[Z], capital I with dot above and the Kelvin
    sign. The literals of the two patterns are ASCII, so the engine only
    ever compares the result with an ASCII lower-case letter, dotless i
    or long s; on every other code point the real function returns
    something that is none of these, as the identity does here. *)
Definition unicode_tolower (c : N) : N :=
  if ascii_upper c then (c + 32)%N
  else if N.eqb c I_DOT then 105%N
  else if N.eqb c KELVIN then 107%N
  else c.

(** [_sre.unicode_iscased] for a literal of a pattern (ASCII). *)
Definition unicode_iscased (c : N) : bool := ascii_upper c || ascii_lower c.

(** [_EXTRA_CASES] of [re/_casefix.py]: other lower-case characters with
    the same upper case. Its only ASCII keys are [i] and [s]. *)
Definition EXTRA_CASES (lo : N) : list N :=
  if N.eqb lo 105 then [DOTLESS_I]
  else if N.eqb lo 115 then [LONG_S]
  else [].

(** A literal [av] of the pattern against the character [ch] of the text
    under [IGNORECASE]: an uncased literal is compared as it is, a cased
    one through [unicode_tolower] ([LITERAL_UNI_IGNORE]), or through the
    set [lo + EXTRA_CASES lo] when there are extra cases
    ([IN_UNI_IGNORE]). *)
Definition lit_ignorecase (av ch : N) : bool :=
  if negb (unicode_iscased av) then N.eqb ch av
  else
    let lo := unicode_tolower av in
    existsb (N.eqb (unicode_tolower ch)) (lo :: EXTRA_CASES lo).

Section Engine.

(** [str.isalnum] beyond ASCII, the four letters above and white space:
    the Unicode database is not part of the repository, and nothing below
    depends on what it says there. *)
Variable uni_alnum : N -> bool.

(** [\w]: alphanumeric or underscore. The four letters are alphabetic,
    white space is not alphanumeric. *)
Definition is_word (c : N) : bool :=
  if (c <? 128)%N then
    ascii_upper c || ascii_lower c || ascii_digit c || N.eqb c 95
  else if existsb (N.eqb c) [I_DOT; DOTLESS_I; LONG_S; KELVIN] then true
  else if is_space c then false
  else uni_alnum c.

(** The patterns use literals, [\b], [\s], [\w], concatenation, the greedy
    [+] and the greedy [?] on a non-capturing group. *)
Inductive regex : Type :=
| Eps : regex
| Lit : N -> regex
| Boundary : regex
| Space : regex
| Word : regex
| Cat : regex -> regex -> regex
| Plus : regex -> regex
| Opt : regex -> regex.

Fixpoint cat_list (rs : list regex) : regex :=
  match rs with
  | [] => Eps
  | r :: rs' => Cat r (cat_list rs')
  end.

Definition lits (s : pystr) : list regex := List.map Lit s.

(** A position in the text: its offset, the character before it and the
    characters from it on. *)
Record cursor : Type := Cursor {
  c_pos : nat;
  c_prev : option N;
  c_rest : pystr
}.

Definition word_opt (o : option N) : bool :=
  match o with
  | Some x => is_word x
  | None => false
  end.

(** [\b]: exactly one of the two neighbours is a word character. *)
Definition at_boundary (c : cursor) : bool :=
  xorb (word_opt (c_prev c)) (word_opt (hd_error (c_rest c))).

(** One character of a class. *)
Definition eat (p : N -> bool) (c : cursor) : list cursor :=
  match c_rest c with
  | x :: tl => if p x then [Cursor (S (c_pos c)) (Some x) tl] else []
  | [] => []
  end.

(** The rounds of a greedy [+] whose body is [body]: one more round is
    tried first, and a round that did not advance is not repeated. [n]
    bounds the number of rounds. *)
Fixpoint rounds (body : cursor -> list cursor) (n : nat) (c0 : cursor)
    : list cursor :=
  match n with
  | O => []
  | S n' =>
      flat_map
        (fun c1 =>
           (if c_pos c0 <? c_pos c1 then rounds body n' c1 else []) ++ [c1])
        (body c0)
  end.

(** The backtracking matcher: every position at which [r], started at
    [c], can end, in the order in which the engine tries them. The head
    of the list is the match the engine reports. Every round of a [+]
    that is repeated advances, so there are at most as many rounds as
    characters left. *)
Fixpoint ends (r : regex) (c : cursor) : list cursor :=
  match r with
  | Eps => [c]
  | Lit av => eat (lit_ignorecase av) c
  | Boundary => if at_boundary c then [c] else []
  | Space => eat is_space c
  | Word => eat is_word c
  | Cat r1 r2 => flat_map (ends r2) (ends r1 c)
  | Opt r1 => ends r1 c ++ [c]
  | Plus r1 => rounds (ends r1) (S (List.length (c_rest c))) c
  end.

(** [re.finditer]: the text is walked from left to right; at a position
    that is not inside the previous match the pattern is tried, a match
    [(start, end)] is reported and the positions before [end] are
    skipped. After an empty match the same position is tried once more
    for a match that is not empty. [skip] counts the positions still
    inside the previous match. *)
Fixpoint finditer_from (r : regex) (skip pos : nat) (prev : option N)
    (rest : pystr) {struct rest} : list (nat * nat) :=
  let next k :=
    match rest with
    | [] => []
    | x :: tl => finditer_from r k (S pos) (Some x) tl
    end in
  match skip with
  | S k => next k
  | O =>
      match ends r (Cursor pos prev rest) with
      | [] => next 0
      | e :: more =>
          if c_pos e =? pos then
            (pos, pos) ::
            match List.find (fun e' => negb (c_pos e' =? pos)) more with
            | Some e' => (pos, c_pos e') :: next (c_pos e' - pos - 1)
            | None => next 0
            end
          else (pos, c_pos e) :: next (c_pos e - pos - 1)
      end
  end.

Definition finditer (r : regex) (text : pystr) : list (nat * nat) :=
  finditer_from r 0 0 None text.

(** [r"\bSET\s+EXTENDED\s+CHECK\b"] *)
Definition SET_EXT_CHECK_RE : regex :=
  cat_list ([Boundary] ++ lits (str "SET") ++ [Plus Space]
            ++ lits (str "EXTENDED") ++ [Plus Space]
            ++ lits (str "CHECK") ++ [Boundary]).

(** [r"\bBREAK-POINT\b(?:\s+\w+)?"] *)
Definition BREAKPOINT_RE : regex :=
  cat_list ([Boundary] ++ lits (str "BREAK-POINT")
            ++ [Boundary; Opt (Cat (Plus Space) (Plus Word))]).

End Engine.

End Re.

Import Re.

(** ** Models *)

Record Finding : Type := {
  prog_name : option pystr;
  incl_name : option pystr;
  types : option pystr;
  blockname : option pystr;
  starting_line : option Z;
  ending_line : option Z;
  issues_type : option pystr;
  severity : option pystr;
  message : option pystr;
  suggestion : option pystr;
  snippet : option pystr
}.

Record Unit : Type := {
  pgm_name : pystr;
  inc_name : pystr;
  type : pystr;
  name : option pystr;
  class_implementation : option pystr;
  start_line : Z;
  end_line : Z;
  code : option pystr;
  findings : option (list Finding)
}.

(** ** Helpers *)

Definition extract_line (text : pystr) (pos : Z) : pystr :=
  let line_start := rfind text LF 0 pos in
  let line_start :=
    if (line_start =? -1)%Z then 0%Z else (line_start + 1)%Z in
  let line_end := PyStr.find text LF pos in
  let line_end := if (line_end =? -1)%Z then len text else line_end in
  slice text line_start line_end.

Definition make_finding (unit : Unit) (src : pystr) (start end_ : Z)
    (issue message suggestion : pystr) : Finding :=
  let line_in_block := (count src LF 0 start + 1)%Z in
  let abs_start := (start_line unit + line_in_block)%Z in
  let abs_end := abs_start in
  let snippet := replace (extract_line src start) LF [BACKSLASH; 110%N] in
  {| prog_name := Some (pgm_name unit);
     incl_name := Some (inc_name unit);
     types := Some (type unit);
     blockname := name unit;
     starting_line := Some abs_start;
     ending_line := Some abs_end;
     issues_type := Some issue;
     severity := Some (str "error");
     message := Some message;
     suggestion := Some suggestion;
     snippet := Some snippet |}.

(** ** Core scan logic *)

(** The issue types, messages and suggestions of the two rules. *)
Definition ISSUE_303 : pystr := str "Rule303_SetExtendedCheck".
Definition ISSUE_304 : pystr := str "Rule304_BreakPointUsage".

Definition MSG_303 : pystr :=
  str "Obsolete SET EXTENDED CHECK statement detected.".
Definition SUG_303 : pystr :=
  str "Remove the SET EXTENDED CHECK statement entirely.".
Definition MSG_304 : pystr :=
  str "BREAK-POINT is not allowed in ABAP Cloud / Key User scenarios.".
Definition SUG_304 : pystr :=
  str "Remove or comment out the BREAK-POINT statement.".

(** [unit.code or ""] *)
Definition src_of (unit : Unit) : pystr :=
  match code unit with
  | Some s => s
  | None => []
  end.

(** [out.findings = ...] on a copy of the unit. *)
Definition set_findings (fs : option (list Finding)) (u : Unit) : Unit :=
  {| pgm_name := pgm_name u;
     inc_name := inc_name u;
     type := type u;
     name := name u;
     class_implementation := class_implementation u;
     start_line := start_line u;
     end_line := end_line u;
     code := code u;
     findings := fs |}.

(** [fnds if fnds else None] *)
Definition or_none (fnds : list Finding) : option (list Finding) :=
  match fnds with
  | [] => None
  | _ :: _ => Some fnds
  end.

(** The findings of a unit, the absent list read as the empty one. *)
Definition findings_of (u : Unit) : list Finding :=
  match findings u with
  | Some fs => fs
  | None => []
  end.

(** [if scanned.findings:] *)
Definition has_findings (u : Unit) : bool :=
  match findings u with
  | Some (_ :: _) => true
  | _ => false
  end.

Section App.

Variable uni_alnum : N -> bool.

(** One rule's loop: a finding is appended for every match. *)
Definition run_rule (unit : Unit) (src : pystr) (re : regex)
    (issue msg sug : pystr) (fnds : list Finding) : list Finding :=
  fold_left
    (fun fnds m =>
       fnds ++ [make_finding unit src (Z.of_nat (fst m)) (Z.of_nat (snd m))
                  issue msg sug])
    (finditer uni_alnum re src) fnds.

(** The list [fnds] at the end of the two loops. *)
Definition collect (unit : Unit) : list Finding :=
  let src := src_of unit in
  let fnds := [] in
  let fnds :=
    run_rule unit src SET_EXT_CHECK_RE ISSUE_303 MSG_303 SUG_303 fnds in
  let fnds :=
    run_rule unit src BREAKPOINT_RE ISSUE_304 MSG_304 SUG_304 fnds in
  fnds.

Definition scan_unit (unit : Unit) : Unit :=
  let fnds := collect unit in
  let out := unit in
  set_findings (or_none fnds) out.

(** *** The same function on objects

    [Unit] objects are mutable: the store maps a reference to the object
    it denotes, building [out] from [unit.model_dump()] allocates, and
    the assignment to [out.findings] updates the store at [out]. *)

Definition ref := nat.
Definition store := list Unit.

Definition new_object (u : Unit) (h : store) : ref * store :=
  (List.length h, h ++ [u]).

Fixpoint setattr (h : store) (r : ref) (f : Unit -> Unit) : store :=
  match h, r with
  | [], _ => []
  | u :: h', O => f u :: h'
  | u :: h', S r' => u :: setattr h' r' f
  end.

Definition scan_unit_obj (unit : ref) (h : store) : option (ref * store) :=
  match nth_error h unit with
  | None => None
  | Some u =>
      let fnds := collect u in
      let (out, h1) := new_object u h in
      Some (out, setattr h1 out (set_findings (or_none fnds)))
  end.

(** ** Endpoints *)

Definition scan_array (units : list Unit) : list Unit :=
  fold_left
    (fun results u =>
       let scanned := scan_unit u in
       if has_findings scanned then results ++ [scanned] else results)
    units [].

Definition scan_single (unit : Unit) : Unit := scan_unit unit.

End App.

(** ** Vocabulary of the specification *)

(** The last character of [w], or [o] when [w] is empty. *)
Definition last_or (o : option N) (w : pystr) : option N :=
  fold_left (fun _ x => Some x) w o.

(** 1 plus the number of line breaks strictly before offset [p]. *)
Definition line_in_block (text : pystr) (p : nat) : Z :=
  (1 + Z.of_nat (count_occ N.eq_dec (firstn p text) LF))%Z.

(** [t] is [kw] written in any letter case. *)
Definition ci_eq (kw t : pystr) : Prop :=
  Forall2 (fun a x => lit_ignorecase a x = true) kw t.

(** A non-empty run of white space, and of word characters. *)
Definition spaces (w : pystr) : Prop :=
  w <> [] /\ Forall (fun x => is_space x = true) w.

(** [line] is the physical line of [text] around offset [p]: it reaches
    from the nearest line break before [p], or the start of the text, to
    the nearest line break at or after [p], or the end of the text. *)
Definition physical_line (text : pystr) (p : nat) (line : pystr) : Prop :=
  exists before after,
    text = before ++ line ++ after /\
    (before = [] \/ exists b, before = b ++ [LF]) /\
    (after = [] \/ exists a, after = LF :: a) /\
    ~ In LF line /\
    List.length before <= p <= List.length before + List.length line.

(** The line a finding starts at. *)
Definition starts_at (f : Finding) : Z :=
  match starting_line f with
  | Some z => z
  | None => 0%Z
  end.

(** A unit moved down by [d] lines, and a finding moved likewise. *)
Definition move_unit (d : Z) (u : Unit) : Unit :=
  {| pgm_name := pgm_name u;
     inc_name := inc_name u;
     type := type u;
     name := name u;
     class_implementation := class_implementation u;
     start_line := (start_line u + d)%Z;
     end_line := (end_line u + d)%Z;
     code := code u;
     findings := findings u |}.

Definition move_line (d : Z) (o : option Z) : option Z :=
  match o with
  | Some z => Some (z + d)%Z
  | None => None
  end.

Definition move_finding (d : Z) (f : Finding) : Finding :=
  {| prog_name := prog_name f;
     incl_name := incl_name f;
     types := types f;
     blockname := blockname f;
     starting_line := move_line d (starting_line f);
     ending_line := move_line d (ending_line f);
     issues_type := issues_type f;
     severity := severity f;
     message := message f;
     suggestion := suggestion f;
     snippet := snippet f |}.

(** The code of a unit replaced. *)
Definition with_code (c : option pystr) (u : Unit) : Unit :=
  {| pgm_name := pgm_name u;
     inc_name := inc_name u;
     type := type u;
     name := name u;
     class_implementation := class_implementation u;
     start_line := start_line u;
     end_line := end_line u;
     code := c;
     findings := findings u |}.

(** ASCII letters turned to upper case, and to lower case; every other
    character is left as it is. *)
Definition upper_ascii (x : N) : N :=
  if ascii_lower x then (x - 32)%N else x.
Definition lower_ascii (x : N) : N :=
  if ascii_upper x then (x + 32)%N else x.

(** A finding whose snippet is changed character by character. *)
Definition map_snippet (g : N -> N) (f : Finding) : Finding :=
  {| prog_name := prog_name f;
     incl_name := incl_name f;
     types := types f;
     blockname := blockname f;
     starting_line := starting_line f;
     ending_line := ending_line f;
     issues_type := issues_type f;
     severity := severity f;
     message := message f;
     suggestion := suggestion f;
     snippet := option_map (List.map g) (snippet f) |}.

(** A cursor over the text changed character by character. *)
Definition map_cursor (g : N -> N) (c : cursor) : cursor :=
  Cursor (c_pos c) (option_map g (c_prev c)) (List.map g (c_rest c)).

(** The findings of one rule. *)
Definition of_rule (issue : pystr) (fs : list Finding) : list Finding :=
  filter (fun f => match issues_type f with
                   | Some i => PyStr.eqb i issue
                   | None => false
                   end) fs.

Section Vocabulary.

Variable uni_alnum : N -> bool.

Definition words (w : pystr) : Prop :=
  w <> [] /\ Forall (fun x => is_word uni_alnum x = true) w.

(** The cursor of [text] at offset [p]. *)
Definition cursor_at (text : pystr) (p : nat) : cursor :=
  Cursor p (last_or None (firstn p text)) (skipn p text).

(** The pattern [r] matches at offset [q] of [text]; it matches at
    offset [p] and nowhere else; it matches nowhere. *)
Definition matches_at (r : regex) (text : pystr) (q : nat) : bool :=
  match ends uni_alnum r (cursor_at text q) with
  | [] => false
  | _ :: _ => true
  end.

Definition matches_only_at (r : regex) (text : pystr) (p : nat) : bool :=
  forallb (fun q => Bool.eqb (q =? p) (matches_at r text q))
          (seq 0 (S (List.length text))).

Definition matches_nowhere (r : regex) (text : pystr) : bool :=
  forallb (fun q => negb (matches_at r text q))
          (seq 0 (S (List.length text))).

(** [e] is the cursor [w] further than [c]. *)
Definition span (c : cursor) (w : pystr) (e : cursor) : Prop :=
  c_rest c = w ++ c_rest e /\
  c_pos e = c_pos c + List.length w /\
  c_prev e = last_or (c_prev c) w.

(** No word character right before [post], resp. right after [pre]. *)
Definition free_before (pre : pystr) : Prop :=
  word_opt uni_alnum (last_or None pre) = false.
Definition free_after (post : pystr) : Prop :=
  word_opt uni_alnum (hd_error post) = false.

(** The phrase SET EXTENDED CHECK: three tokens in any letter case with
    white space between them. *)
Definition phrase303 (ph : pystr) : Prop :=
  exists t1 w1 t2 w2 t3,
    ph = t1 ++ w1 ++ t2 ++ w2 ++ t3 /\
    ci_eq (str "SET") t1 /\ spaces w1 /\
    ci_eq (str "EXTENDED") t2 /\ spaces w2 /\
    ci_eq (str "CHECK") t3.

(** The phrase occurs at offset [p] of [text], bounded by word
    boundaries. *)
Definition occurs303 (text : pystr) (p : nat) : Prop :=
  exists pre ph post,
    text = pre ++ ph ++ post /\ List.length pre = p /\
    phrase303 ph /\ free_before pre /\ free_after post.

(** The keyword BREAK-POINT occurs at offset [p] of [text], bounded by
    word boundaries. *)
Definition occurs304 (text : pystr) (p : nat) : Prop :=
  exists pre kw post,
    text = pre ++ kw ++ post /\ List.length pre = p /\
    ci_eq (str "BREAK-POINT") kw /\ free_before pre /\ free_after post.

(** The same occurrence, followed by white space and one word token. *)
Definition occurs304_with_token (text : pystr) (p : nat) : Prop :=
  exists pre kw ws tok post,
    text = pre ++ kw ++ ws ++ tok ++ post /\ List.length pre = p /\
    ci_eq (str "BREAK-POINT") kw /\ free_before pre /\
    spaces ws /\ words tok /\ free_after post.

(** The text between [pre] and [post] stands inside a longer identifier:
    a word character touches it on the left or on the right. *)
Definition inside_identifier (pre post : pystr) : Prop :=
  word_opt uni_alnum (last_or None pre) = true \/
  word_opt uni_alnum (hd_error post) = true.

(** Between two neighbours [a], [b] no occurrence of a keyword whose
    first letter is [k] can begin: [a] is a word character, or [b] is not
    that letter. *)
Definition shut (k : N) (a b : N) : Prop :=
  is_word uni_alnum a = true \/ lit_ignorecase k b = false.

End Vocabulary.

(** ** Example units *)

(** A Unicode table that adds no word character to the tabulated ones. *)
Definition no_alnum : N -> bool := fun _ => false.

Definition example_unit (start : Z) (code : option pystr) : Unit :=
  {| pgm_name := str "ZPROG";
     inc_name := str "ZINCL";
     type := str "METHOD";
     name := Some (str "RUN");
     class_implementation := None;
     start_line := start;
     end_line := (start + 10)%Z;
     code := code;
     findings := None |}.

Definition TAB : N := 9%N.

(** The phrase of Rule 303 in mixed case on the second line. *)
Definition text_303 : pystr :=
  str "DATA x." ++ [LF] ++ str "  sEt   Extended" ++ [TAB] ++ str "check."
  ++ [LF].

(** BREAK-POINT with a trailing identifier on the second line. *)
Definition text_304 : pystr :=
  str "IF a." ++ [LF] ++ str "  break-point ID." ++ [LF] ++ str "ENDIF.".

(** Both statements, on the second and on the fourth line. *)
Definition text_both : pystr :=
  str "REPORT z." ++ [LF] ++ str "Set Extended Check OFF." ++ [LF]
  ++ str "WRITE 1." ++ [LF] ++ str "BREAK-POINT." ++ [LF].

(** Carriage returns as the only line separators. *)
Definition text_cr : pystr :=
  str "DATA x." ++ [CR] ++ str "BREAK-POINT." ++ [CR] ++ str "ENDIF.".

(** Carriage return and line feed together as line separators. *)
Definition text_crlf : pystr :=
  str "DATA x." ++ [CR; LF] ++ str "BREAK-POINT." ++ [CR; LF]
  ++ str "ENDIF.".

(** A finding left on a unit by an earlier scan. *)
Definition stale_finding : Finding :=
  {| prog_name := Some (str "ZPROG");
     incl_name := Some (str "ZINCL");
     types := Some (str "METHOD");
     blockname := Some (str "RUN");
     starting_line := Some 3%Z;
     ending_line := Some 3%Z;
     issues_type := Some ISSUE_304;
     severity := Some (str "error");
     message := Some MSG_304;
     suggestion := Some SUG_304;
     snippet := Some (str "BREAK-POINT.") |}.

Definition unit_stale : Unit :=
  set_findings (Some [stale_finding]) (example_unit 20 (Some text_303)).

(** ** Strings: slices, searches and counts *)

Section PyStrFacts.

Lemma clip_of_nat (s : pystr) (n : nat) :
  clip s (Z.of_nat n) = Nat.min n (List.length s).
Proof.
  unfold clip, len.
  destruct (Z.of_nat n <? 0)%Z eqn:E; [apply Z.ltb_lt in E; lia|].
  lia.
Qed.

Lemma clip_zero (s : pystr) : clip s 0 = 0.
Proof. apply (clip_of_nat s 0). Qed.


Lemma slice_nat (s : pystr) (a b : nat) :
  a <= b <= List.length s ->
  slice s (Z.of_nat a) (Z.of_nat b) = firstn (b - a) (skipn a s).
Proof.
  intros H. unfold slice. rewrite !clip_of_nat.
  replace (Nat.min b (List.length s)) with b by lia.
  replace (Nat.min a (List.length s)) with a by lia.
  reflexivity.
Qed.

Lemma slice_prefix (s : pystr) (n : nat) :
  slice s 0 (Z.of_nat n) = firstn n s.
Proof.
  unfold slice. rewrite clip_zero, clip_of_nat. simpl. rewrite Nat.sub_0_r.
  destruct (Nat.le_ge_cases n (List.length s)) as [H|H].
  - now rewrite Nat.min_l.
  - rewrite Nat.min_r by assumption.
    rewrite !firstn_all2; auto.
Qed.

Lemma count_prefix (s : pystr) (c : N) (n : nat) :
  count s c 0 (Z.of_nat n) = Z.of_nat (count_occ N.eq_dec (firstn n s) c).
Proof. unfold count. now rewrite slice_prefix. Qed.

Lemma last_index_of_none (c : N) (l : pystr) :
  ~ In c l -> last_index_of c l = None.
Proof.
  induction l as [|x l IH]; simpl; intros H; [reflexivity|].
  rewrite IH by tauto.
  destruct (N.eqb_spec x c); [subst; tauto | reflexivity].
Qed.

Lemma last_index_of_app_free (c : N) (b l : pystr) :
  ~ In c l -> last_index_of c (b ++ l) = last_index_of c b.
Proof.
  intros H. induction b as [|x b IH]; simpl.
  - now apply last_index_of_none.
  - now rewrite IH.
Qed.

Lemma last_index_of_snoc (c : N) (b : pystr) :
  last_index_of c (b ++ [c]) = Some (List.length b).
Proof.
  induction b as [|x b IH]; simpl.
  - now rewrite N.eqb_refl.
  - now rewrite IH.
Qed.

Lemma index_of_none (c : N) (l : pystr) :
  ~ In c l -> index_of c l = None.
Proof.
  induction l as [|x l IH]; simpl; intros H; [reflexivity|].
  destruct (N.eqb_spec x c); [subst; tauto|].
  now rewrite IH by tauto.
Qed.

Lemma index_of_app_free (c : N) (l a : pystr) :
  ~ In c l -> index_of c (l ++ c :: a) = Some (List.length l).
Proof.
  induction l as [|x l IH]; simpl; intros H.
  - now rewrite N.eqb_refl.
  - destruct (N.eqb_spec x c); [subst; tauto|].
    now rewrite IH by tauto.
Qed.

Lemma replace_free (s : pystr) (c : N) (by_ : pystr) :
  ~ In c s -> replace s c by_ = s.
Proof.
  unfold replace. induction s as [|x s IH]; simpl; intros H; [reflexivity|].
  destruct (N.eqb_spec x c); [subst; tauto|].
  simpl. now rewrite IH by tauto.
Qed.

Lemma not_in_firstn (c : N) (l : pystr) (n : nat) :
  ~ In c l -> ~ In c (firstn n l).
Proof.
  intros H Hin. apply H. rewrite <- (firstn_skipn n l).
  apply in_or_app. now left.
Qed.

Lemma not_in_skipn (c : N) (l : pystr) (n : nat) :
  ~ In c l -> ~ In c (skipn n l).
Proof.
  intros H Hin. apply H. rewrite <- (firstn_skipn n l).
  apply in_or_app. now right.
Qed.

End PyStrFacts.

(** ** [extract_line] returns the physical line *)

Lemma extract_line_physical (text : pystr) (p : nat) (line : pystr) :
  physical_line text p line ->
  extract_line text (Z.of_nat p) = line.
Proof.
  intros (before & after & -> & Hb & Ha & Hfree & Hp).
  unfold extract_line.
  set (k := p - List.length before).
  assert (Hk : p = List.length before + k) by (unfold k; lia).
  assert (Hkl : k <= List.length line) by lia.
  (* the search to the left *)
  assert (Hleft :
    (let ls := rfind (before ++ line ++ after) LF 0 (Z.of_nat p) in
     if (ls =? -1)%Z then 0%Z else (ls + 1)%Z) = Z.of_nat (List.length before)).
  { unfold rfind. rewrite slice_prefix, clip_zero.
    rewrite Hk, firstn_app_2, firstn_app.
    replace (firstn (k - List.length line) after) with (@nil N)
      by (replace (k - List.length line) with 0 by lia; reflexivity).
    rewrite app_nil_r.
    rewrite last_index_of_app_free by now apply not_in_firstn.
    destruct Hb as [-> | [b ->]].
    - reflexivity.
    - rewrite last_index_of_snoc. cbn zeta.
      destruct (Z.eqb_spec (Z.of_nat (0 + List.length b)) (-1)); [lia|].
      rewrite length_app. simpl. lia. }
  (* the search to the right *)
  assert (Hright :
    (let le := PyStr.find (before ++ line ++ after) LF (Z.of_nat p) in
     if (le =? -1)%Z then len (before ++ line ++ after) else le)
    = Z.of_nat (List.length before + List.length line)).
  { unfold PyStr.find. rewrite clip_of_nat.
    rewrite Nat.min_l by (rewrite !length_app; lia).
    rewrite Hk, skipn_app.
    rewrite skipn_all2 by lia. simpl.
    replace (List.length before + k - List.length before) with k by lia.
    rewrite skipn_app.
    replace (k - List.length line) with 0 by lia. simpl.
    destruct Ha as [-> | [a ->]].
    - rewrite app_nil_r, index_of_none by now apply not_in_skipn.
      simpl. unfold len. rewrite !length_app. simpl. f_equal. lia.
    - rewrite index_of_app_free by now apply not_in_skipn.
      cbn zeta. rewrite length_skipn.
      destruct (Z.eqb_spec
                  (Z.of_nat (List.length before + k + (List.length line - k)))
                  (-1)); [lia|].
      f_equal. lia. }
  cbn zeta in Hleft, Hright. rewrite Hleft, Hright.
  rewrite slice_nat by (rewrite !length_app; lia).
  rewrite skipn_app, skipn_all2 by lia. simpl.
  rewrite Nat.sub_diag. simpl.
  replace (List.length before + List.length line - List.length before)
    with (List.length line) by lia.
  rewrite firstn_app, Nat.sub_diag, firstn_all. simpl. apply app_nil_r.
Qed.

Lemma split_at_last (c : N) (l : pystr) :
  exists b l1, l = b ++ l1 /\ ~ In c l1 /\
               (b = [] \/ exists b', b = b' ++ [c]).
Proof.
  induction l as [|x l IH] using rev_ind.
  - exists [], []. simpl. tauto.
  - destruct (N.eq_dec x c) as [->|Hne].
    + exists (l ++ [c]), []. rewrite app_nil_r. simpl.
      repeat split; [tauto | right; now exists l].
    + destruct IH as (b & l1 & -> & Hfree & Hb).
      exists b, (l1 ++ [x]). rewrite app_assoc. repeat split; auto.
      intros Hin. apply in_app_or in Hin. simpl in Hin.
      destruct Hin as [?|[?|[]]]; [tauto | congruence].
Qed.

Lemma split_at_first (c : N) (l : pystr) :
  exists l2 a, l = l2 ++ a /\ ~ In c l2 /\
               (a = [] \/ exists a', a = c :: a').
Proof.
  induction l as [|x l IH].
  - exists [], []. simpl. tauto.
  - destruct (N.eq_dec x c) as [->|Hne].
    + exists [], (c :: l). simpl. repeat split; [tauto | right; now exists l].
    + destruct IH as (l2 & a & -> & Hfree & Ha).
      exists (x :: l2), a. simpl. repeat split; auto.
      intros [?|?]; [congruence | tauto].
Qed.

Lemma physical_line_exists (text : pystr) (p : nat) :
  p <= List.length text -> exists line, physical_line text p line.
Proof.
  intros Hp.
  destruct (split_at_last LF (firstn p text)) as (b & l1 & E1 & F1 & Hb).
  destruct (split_at_first LF (skipn p text)) as (l2 & a & E2 & F2 & Ha).
  exists (l1 ++ l2), b, a. repeat split; auto.
  - transitivity (firstn p text ++ skipn p text);
      [symmetry; apply firstn_skipn|].
    rewrite E1, E2, <- !app_assoc. reflexivity.
  - intros Hin. apply in_app_or in Hin. tauto.
  - apply (f_equal (@List.length N)) in E1.
    rewrite length_firstn, length_app in E1. lia.
  - apply (f_equal (@List.length N)) in E1.
    rewrite length_firstn, length_app in E1. rewrite length_app. lia.
Qed.

Lemma extract_line_is_physical (text : pystr) (p : nat) :
  p <= List.length text ->
  physical_line text p (extract_line text (Z.of_nat p)).
Proof.
  intros Hp. destruct (physical_line_exists text Hp) as [line H].
  now rewrite (extract_line_physical H).
Qed.

Lemma physical_line_free (text : pystr) (p : nat) (line : pystr) :
  physical_line text p line -> ~ In LF line.
Proof. intros (b & a & _ & _ & _ & H & _). exact H. Qed.

(** ** The engine on spans of text *)

Section EngineFacts.

Variable uni_alnum : N -> bool.

Local Abbreviation ends := (ends uni_alnum).
Local Abbreviation is_word := (is_word uni_alnum).

Lemma last_or_app (o : option N) (w1 w2 : pystr) :
  last_or o (w1 ++ w2) = last_or (last_or o w1) w2.
Proof. apply fold_left_app. Qed.

Lemma last_or_snoc (o : option N) (w : pystr) (x : N) :
  last_or o (w ++ [x]) = Some x.
Proof. now rewrite last_or_app. Qed.

Lemma span_nil (c : cursor) : span c [] c.
Proof. unfold span. simpl. repeat split. lia. Qed.

Lemma span_app (c m e : cursor) (w1 w2 : pystr) :
  span c w1 m -> span m w2 e -> span c (w1 ++ w2) e.
Proof.
  intros (R1 & P1 & V1) (R2 & P2 & V2). unfold span.
  rewrite R1, R2, P2, P1, V2, V1, length_app, last_or_app, <- app_assoc.
  repeat split. lia.
Qed.

Lemma span_unique (c e1 e2 : cursor) (w : pystr) :
  span c w e1 -> span c w e2 -> e1 = e2.
Proof.
  intros (R1 & P1 & V1) (R2 & P2 & V2).
  destruct e1 as [p1 v1 r1], e2 as [p2 v2 r2]. simpl in *.
  rewrite R1 in R2. apply app_inv_head in R2. congruence.
Qed.

(** A span can be cut where its word is cut. *)
Lemma span_split (c e : cursor) (w1 w2 : pystr) :
  span c (w1 ++ w2) e ->
  exists m, span c w1 m /\ span m w2 e.
Proof.
  intros (R & P & V).
  exists (Cursor (c_pos c + List.length w1) (last_or (c_prev c) w1)
                 (w2 ++ c_rest e)).
  unfold span. simpl. rewrite R, P, V, length_app, last_or_app, <- app_assoc.
  repeat split; lia.
Qed.

Lemma span_advances (c e : cursor) (w : pystr) :
  span c w e -> c_pos e = c_pos c + List.length w.
Proof. now intros (_ & P & _). Qed.

Lemma in_eat (p : N -> bool) (c e : cursor) :
  In e (eat p c) <-> exists x, p x = true /\ span c [x] e.
Proof.
  unfold eat, span. destruct c as [pos prev rest]. simpl. split.
  - destruct rest as [|x tl]; [intros []|].
    destruct (p x) eqn:E; [|intros []].
    intros [<-|[]]. exists x. simpl. repeat split; auto. lia.
  - intros (x & Hp & R & P & V). subst rest. rewrite Hp. left.
    destruct e as [p' v' r']. simpl in *. f_equal; auto. lia.
Qed.

Lemma in_ends_cat (r1 r2 : regex) (c e : cursor) :
  In e (ends (Cat r1 r2) c) <->
  exists m, In m (ends r1 c) /\ In e (ends r2 m).
Proof. simpl. apply in_flat_map. Qed.

Lemma in_ends_boundary (rs : list regex) (c e : cursor) :
  In e (ends (cat_list ([Boundary] ++ rs)) c) <->
  at_boundary uni_alnum c = true /\ In e (ends (cat_list rs) c).
Proof.
  change (cat_list ([Boundary] ++ rs)) with (Cat Boundary (cat_list rs)).
  rewrite in_ends_cat. simpl. split.
  - intros (m & Hm & He). destruct (at_boundary uni_alnum c); [|destruct Hm].
    destruct Hm as [<-|[]]. auto.
  - intros [Hb He]. exists c. rewrite Hb. simpl. auto.
Qed.

Lemma in_ends_lits (kw : pystr) (rs : list regex) (c e : cursor) :
  In e (ends (cat_list (lits kw ++ rs)) c) <->
  exists t m, ci_eq kw t /\ span c t m /\ In e (ends (cat_list rs) m).
Proof.
  revert c. induction kw as [|a kw IH]; intros c.
  - simpl. split.
    + intros H. exists [], c.
      split; [constructor|]. split; [apply span_nil | assumption].
    + intros (t & m & Ht & Hs & He). inversion Ht; subst.
      now rewrite (span_unique (span_nil c) Hs).
  - change (cat_list (lits (a :: kw) ++ rs))
      with (Cat (Lit a) (cat_list (lits kw ++ rs))).
    rewrite in_ends_cat. split.
    + intros (m & Hm & He). apply in_eat in Hm. destruct Hm as (x & Hx & Hs).
      apply IH in He. destruct He as (t & m' & Ht & Hs' & He).
      exists (x :: t), m'.
      split; [now constructor|]. split; [apply (span_app Hs Hs') | assumption].
    + intros (t & m & Ht & Hs & He). inversion Ht as [|? x ? t' Hx Ht']; subst.
      destruct (@span_split c m [x] t' Hs) as (m1 & Hs1 & Hs2).
      exists m1. split.
      * apply in_eat. now exists x.
      * apply IH. now exists t', m.
Qed.

(** The rounds of [+] over a character class consume a non-empty run of
    the class, and every such run is tried. *)
Lemma in_rounds_class (p : N -> bool) (n : nat) (c e : cursor) :
  List.length (c_rest c) < n ->
  In e (rounds (eat p) n c) <->
  exists w, w <> [] /\ Forall (fun x => p x = true) w /\ span c w e.
Proof.
  revert c. induction n as [|n IH]; intros c Hn; [lia|].
  simpl. rewrite in_flat_map. split.
  - intros (c1 & Hc1 & He). apply in_eat in Hc1.
    destruct Hc1 as (x & Hx & Hs).
    apply in_app_or in He. destruct He as [He|[<-|[]]].
    + destruct (c_pos c <? c_pos c1); [|destruct He].
      apply IH in He.
      * destruct He as (w & _ & Hw & Hs').
        exists (x :: w).
        split; [discriminate|]. split; [now constructor|].
        apply (span_app Hs Hs').
      * destruct Hs as (R & _ & _). rewrite R in Hn. simpl in Hn. lia.
    + exists [x].
      split; [discriminate|]. split; [now repeat constructor | assumption].
  - intros (w & Hne & Hw & Hs). destruct w as [|x w]; [congruence|].
    inversion Hw as [|? ? Hx Hw']; subst.
    destruct (@span_split c e [x] w Hs) as (c1 & Hs1 & Hs2).
    exists c1. split; [apply in_eat; now exists x|].
    apply in_or_app. destruct w as [|y w].
    + right. left. apply (span_unique (span_nil c1) Hs2).
    + left. rewrite (span_advances Hs1). simpl.
      replace (c_pos c <? c_pos c + 1) with true
        by (symmetry; apply Nat.ltb_lt; lia).
      apply IH.
      * destruct Hs1 as (R & _ & _). rewrite R in Hn. simpl in Hn. lia.
      * exists (y :: w).
        split; [discriminate|]. split; assumption.
Qed.

Lemma in_ends_plus_space (c e : cursor) :
  In e (ends (Plus Space) c) <-> exists w, spaces w /\ span c w e.
Proof.
  change (ends (Plus Space) c)
    with (rounds (eat is_space) (S (List.length (c_rest c))) c).
  rewrite in_rounds_class by lia. unfold spaces. split.
  - intros (w & ? & ? & ?). exists w. auto.
  - intros (w & [? ?] & ?). exists w. auto.
Qed.

Lemma in_ends_plus_word (c e : cursor) :
  In e (ends (Plus Word) c) <-> exists w, words uni_alnum w /\ span c w e.
Proof.
  change (ends (Plus Word) c)
    with (rounds (eat is_word) (S (List.length (c_rest c))) c).
  rewrite in_rounds_class by lia. unfold words. split.
  - intros (w & ? & ? & ?). exists w. auto.
  - intros (w & [? ?] & ?). exists w. auto.
Qed.

Lemma in_ends_spaces_then (rs : list regex) (c e : cursor) :
  In e (ends (cat_list ([Plus Space] ++ rs)) c) <->
  exists w m, spaces w /\ span c w m /\ In e (ends (cat_list rs) m).
Proof.
  change (cat_list ([Plus Space] ++ rs)) with (Cat (Plus Space) (cat_list rs)).
  rewrite in_ends_cat. split.
  - intros (m & Hm & He). apply in_ends_plus_space in Hm.
    destruct Hm as (w & Hw & Hs). now exists w, m.
  - intros (w & m & Hw & Hs & He). exists m. split; auto.
    apply in_ends_plus_space. now exists w.
Qed.

End EngineFacts.

(** ** The letters of the patterns *)

Section Letters.

Variable uni_alnum : N -> bool.

(** The characters a cased ASCII literal matches: itself in both cases,
    and at most the four letters outside ASCII. *)
Lemma lit_ignorecase_cases (a x : N) :
  unicode_iscased a = true ->
  lit_ignorecase a x = true ->
  In x [unicode_tolower a; (unicode_tolower a - 32)%N;
        I_DOT; DOTLESS_I; LONG_S; KELVIN].
Proof.
  intros Ha. unfold lit_ignorecase. rewrite Ha. simpl negb. cbv iota.
  assert (Hlo : (97 <= unicode_tolower a <= 122)%N).
  { unfold unicode_iscased, ascii_upper, ascii_lower in Ha.
    unfold unicode_tolower, ascii_upper, I_DOT, KELVIN.
    destruct (65 <=? a)%N eqn:E1; destruct (a <=? 90)%N eqn:E2;
      destruct (97 <=? a)%N eqn:E3; destruct (a <=? 122)%N eqn:E4;
      simpl in *; try discriminate;
      repeat match goal with
             | H : (_ <=? _)%N = true |- _ => apply N.leb_le in H
             | H : (_ <=? _)%N = false |- _ => apply N.leb_gt in H
             end;
      try lia;
      destruct (N.eqb_spec a 304); try lia;
      destruct (N.eqb_spec a 8490); lia. }
  set (lo := unicode_tolower a) in *.
  assert (Hx : forall v, unicode_tolower x = v ->
               (v = lo \/ v = DOTLESS_I \/ v = LONG_S) ->
               In x [lo; (lo - 32)%N; I_DOT; DOTLESS_I; LONG_S; KELVIN]).
  { intros v Hv Hcase. unfold unicode_tolower, ascii_upper in Hv.
    unfold I_DOT, DOTLESS_I, LONG_S, KELVIN in *.
    destruct (65 <=? x)%N eqn:E1; destruct (x <=? 90)%N eqn:E2; simpl in Hv;
      repeat match goal with
             | H : (_ <=? _)%N = true |- _ => apply N.leb_le in H
             | H : (_ <=? _)%N = false |- _ => apply N.leb_gt in H
             end.
    1: { simpl. right. left. lia. }
    all: destruct (N.eqb_spec x 304); [subst x; simpl; auto 10|];
         destruct (N.eqb_spec x 8490); [subst x; simpl; auto 10|];
         subst v; destruct Hcase as [->|[->| ->]]; simpl; auto 10. }
  intros H. apply existsb_exists in H. destruct H as (v & Hin & Hv).
  apply N.eqb_eq in Hv. apply (Hx v Hv). simpl in Hin.
  destruct Hin as [<-|Hin]; [auto|].
  unfold EXTRA_CASES in Hin.
  destruct (lo =? 105)%N; [destruct Hin as [<-|[]]; auto|].
  destruct (lo =? 115)%N; [destruct Hin as [<-|[]]; auto | destruct Hin].
Qed.

Lemma lit_ignorecase_word (a x : N) :
  unicode_iscased a = true ->
  lit_ignorecase a x = true ->
  is_word uni_alnum x = true.
Proof.
  intros Ha Hx. pose proof (lit_ignorecase_cases a x Ha Hx) as Hin.
  assert (Hlo : (97 <= unicode_tolower a <= 122)%N).
  { clear -Ha. unfold unicode_iscased, ascii_upper, ascii_lower in Ha.
    unfold unicode_tolower, ascii_upper, I_DOT, KELVIN.
    destruct (65 <=? a)%N eqn:E1; destruct (a <=? 90)%N eqn:E2;
      destruct (97 <=? a)%N eqn:E3; destruct (a <=? 122)%N eqn:E4;
      simpl in *; try discriminate;
      repeat match goal with
             | H : (_ <=? _)%N = true |- _ => apply N.leb_le in H
             | H : (_ <=? _)%N = false |- _ => apply N.leb_gt in H
             end;
      try lia;
      destruct (N.eqb_spec a 304); try lia;
      destruct (N.eqb_spec a 8490); lia. }
  set (lo := unicode_tolower a) in *. simpl in Hin.
  destruct Hin as [<-|[<-|[<-|[<-|[<-|[<-|[]]]]]]]; try reflexivity.
  - unfold is_word, ascii_lower.
    replace (lo <? 128)%N with true by (symmetry; apply N.ltb_lt; lia).
    replace (97 <=? lo)%N with true by (symmetry; apply N.leb_le; lia).
    replace (lo <=? 122)%N with true by (symmetry; apply N.leb_le; lia).
    simpl. now rewrite orb_true_r.
  - unfold is_word, ascii_upper.
    replace (lo - 32 <? 128)%N with true by (symmetry; apply N.ltb_lt; lia).
    replace (65 <=? lo - 32)%N with true by (symmetry; apply N.leb_le; lia).
    replace (lo - 32 <=? 90)%N with true by (symmetry; apply N.leb_le; lia).
    reflexivity.
Qed.

(** A keyword that starts and ends with a letter starts and ends with a
    word character in whatever case it is written. *)
Lemma ci_eq_first_word (a : N) (kw t : pystr) :
  unicode_iscased a = true -> ci_eq (a :: kw) t ->
  word_opt uni_alnum (hd_error t) = true.
Proof.
  intros Ha H. inversion H as [|? x ? t' Hx _]; subst. simpl.
  now apply (lit_ignorecase_word a).
Qed.

Lemma ci_eq_last_word (a : N) (kw t : pystr) (o : option N) :
  unicode_iscased a = true -> ci_eq (kw ++ [a]) t ->
  word_opt uni_alnum (last_or o t) = true.
Proof.
  intros Ha H. apply Forall2_app_inv_l in H.
  destruct H as (t1 & t2 & _ & H2 & ->).
  inversion H2 as [|? x ? t' Hx Hnil]; subst. inversion Hnil; subst.
  rewrite last_or_snoc. simpl. now apply (lit_ignorecase_word a).
Qed.

Lemma ci_eq_length (kw t : pystr) :
  ci_eq kw t -> List.length t = List.length kw.
Proof. intros H. symmetry. eapply Forall2_length; eauto. Qed.

Lemma space_not_word (x : N) :
  is_space x = true -> is_word uni_alnum x = false.
Proof.
  unfold is_space. intros H. apply existsb_exists in H.
  destruct H as (y & Hin & Hy). apply N.eqb_eq in Hy. subst y.
  simpl in Hin.
  repeat (destruct Hin as [<-|Hin]; [reflexivity|]). destruct Hin.
Qed.

End Letters.

(** ** What the two patterns match *)

Section PatternFacts.

Variable uni_alnum : N -> bool.

Local Abbreviation ends := (ends uni_alnum).
Local Abbreviation word_opt := (word_opt uni_alnum).

Lemma in_ends_single (r : regex) (c e : cursor) :
  In e (ends (cat_list [r]) c) <-> In e (ends r c).
Proof.
  change (cat_list [r]) with (Cat r Eps). rewrite in_ends_cat. simpl. split.
  - intros (m & Hm & [<-|[]]). exact Hm.
  - intros H. exists e. auto.
Qed.

Lemma in_ends_opt (r : regex) (c e : cursor) :
  In e (ends (Opt r) c) <-> In e (ends r c) \/ e = c.
Proof.
  change (ends (Opt r) c) with (ends r c ++ [c]). rewrite in_app_iff.
  simpl. intuition congruence.
Qed.

Lemma hd_error_app_word (t r : pystr) :
  word_opt (hd_error t) = true -> hd_error (t ++ r) = hd_error t.
Proof. destruct t; simpl; [discriminate | reflexivity]. Qed.

Lemma boundary_before_word (c : cursor) :
  word_opt (hd_error (c_rest c)) = true ->
  (at_boundary uni_alnum c = true <-> word_opt (c_prev c) = false).
Proof.
  unfold at_boundary. intros ->. destruct (word_opt (c_prev c)); simpl;
    split; congruence.
Qed.

Lemma boundary_after_word (c : cursor) :
  word_opt (c_prev c) = true ->
  (at_boundary uni_alnum c = true <->
   word_opt (hd_error (c_rest c)) = false).
Proof.
  unfold at_boundary. intros ->.
  destruct (word_opt (hd_error (c_rest c))); simpl; split; congruence.
Qed.

Lemma phrase303_starts (ph : pystr) :
  phrase303 ph -> word_opt (hd_error ph) = true /\ 3 <= List.length ph.
Proof.
  intros (t1 & w1 & t2 & w2 & t3 & -> & H1 & _).
  pose proof (ci_eq_length H1) as L.
  pose proof (@ci_eq_first_word uni_alnum 83 (str "ET") t1 eq_refl H1) as W.
  rewrite hd_error_app_word by exact W. split; [exact W|].
  rewrite length_app, L. simpl. lia.
Qed.

Lemma phrase303_ends (ph : pystr) (o : option N) :
  phrase303 ph -> word_opt (last_or o ph) = true.
Proof.
  intros (t1 & w1 & t2 & w2 & t3 & -> & _ & _ & _ & _ & H3).
  rewrite !last_or_app.
  apply (@ci_eq_last_word uni_alnum 75 (str "CHEC") t3 _ eq_refl H3).
Qed.

Lemma keyword304_starts (kw : pystr) :
  ci_eq (str "BREAK-POINT") kw ->
  word_opt (hd_error kw) = true /\ List.length kw = 11.
Proof.
  intros H. split.
  - apply (@ci_eq_first_word uni_alnum 66 (str "REAK-POINT") kw eq_refl H).
  - apply (ci_eq_length H).
Qed.

Lemma keyword304_ends (kw : pystr) (o : option N) :
  ci_eq (str "BREAK-POINT") kw -> word_opt (last_or o kw) = true.
Proof.
  intros H.
  apply (@ci_eq_last_word uni_alnum 84 (str "BREAK-POIN") kw _ eq_refl H).
Qed.

(** [SET_EXT_CHECK_RE] matches from [c] to [e] exactly when the text
    between them is the phrase and no word character touches it. *)
Lemma in_ends_303 (c e : cursor) :
  In e (ends (SET_EXT_CHECK_RE) c) <->
  exists ph, phrase303 ph /\ span c ph e /\
             word_opt (c_prev c) = false /\
             word_opt (hd_error (c_rest e)) = false.
Proof.
  unfold SET_EXT_CHECK_RE. split.
  - intros H.
    apply in_ends_boundary in H. destruct H as [Hb H].
    apply in_ends_lits in H. destruct H as (t1 & m1 & Ht1 & S1 & H).
    apply in_ends_spaces_then in H. destruct H as (w1 & m2 & Hw1 & S2 & H).
    apply in_ends_lits in H. destruct H as (t2 & m3 & Ht2 & S3 & H).
    apply in_ends_spaces_then in H. destruct H as (w2 & m4 & Hw2 & S4 & H).
    apply in_ends_lits in H. destruct H as (t3 & m5 & Ht3 & S5 & H).
    apply -> in_ends_single in H. simpl in H.
    destruct (at_boundary uni_alnum m5) eqn:Hb'; [|destruct H].
    destruct H as [<-|[]].
    assert (Hph : phrase303 (t1 ++ w1 ++ t2 ++ w2 ++ t3))
      by (exists t1, w1, t2, w2, t3; auto 10).
    pose proof (span_app S1 (span_app S2 (span_app S3 (span_app S4 S5))))
      as Hs.
    exists (t1 ++ w1 ++ t2 ++ w2 ++ t3). split; [exact Hph|].
    split; [exact Hs|]. split.
    + apply boundary_before_word; [|exact Hb].
      destruct Hs as (R & _ & _). rewrite R.
      rewrite hd_error_app_word; apply (phrase303_starts Hph).
    + apply boundary_after_word; [|exact Hb'].
      destruct Hs as (_ & _ & V). rewrite V. apply (phrase303_ends _ Hph).
  - intros (ph & Hph & Hs & Hb & Ha).
    pose proof Hph as (t1 & w1 & t2 & w2 & t3 & E & Ht1 & Hw1 & Ht2 & Hw2 & Ht3).
    subst ph.
    destruct (span_split _ _ Hs) as (m1 & S1 & Hs1).
    destruct (span_split _ _ Hs1) as (m2 & S2 & Hs2).
    destruct (span_split _ _ Hs2) as (m3 & S3 & Hs3).
    destruct (span_split _ _ Hs3) as (m4 & S4 & S5).
    apply in_ends_boundary. split.
    { apply boundary_before_word; [|exact Hb].
      destruct Hs as (R & _ & _). rewrite R.
      rewrite hd_error_app_word; apply (phrase303_starts Hph). }
    apply in_ends_lits. exists t1, m1. do 2 (split; [assumption|]).
    apply in_ends_spaces_then. exists w1, m2. do 2 (split; [assumption|]).
    apply in_ends_lits. exists t2, m3. do 2 (split; [assumption|]).
    apply in_ends_spaces_then. exists w2, m4. do 2 (split; [assumption|]).
    apply in_ends_lits. exists t3, e. do 2 (split; [assumption|]).
    apply in_ends_single. simpl.
    replace (at_boundary uni_alnum e) with true; [now left|].
    symmetry. apply boundary_after_word; [|exact Ha].
    destruct Hs as (_ & _ & V). rewrite V. apply (phrase303_ends _ Hph).
Qed.

(** [BREAKPOINT_RE] matches from [c] exactly when the keyword stands
    there and no word character touches it; the match ends after the
    keyword, or after white space and one word token behind it. *)
Lemma in_ends_304 (c e : cursor) :
  In e (ends (BREAKPOINT_RE) c) <->
  exists kw m, ci_eq (str "BREAK-POINT") kw /\ span c kw m /\
               word_opt (c_prev c) = false /\
               word_opt (hd_error (c_rest m)) = false /\
               (e = m \/
                exists ws tok, spaces ws /\ words uni_alnum tok /\
                               span m (ws ++ tok) e).
Proof.
  unfold BREAKPOINT_RE. split.
  - intros H.
    apply in_ends_boundary in H. destruct H as [Hb H].
    apply in_ends_lits in H. destruct H as (kw & m & Hkw & S1 & H).
    change [Boundary; Opt (Cat (Plus Space) (Plus Word))]
      with ([Boundary] ++ [Opt (Cat (Plus Space) (Plus Word))]) in H.
    apply in_ends_boundary in H. destruct H as [Hb' H].
    apply -> in_ends_single in H.
    exists kw, m. do 2 (split; [assumption|]). split; [|split].
    + apply boundary_before_word; [|exact Hb].
      destruct S1 as (R & _ & _). rewrite R.
      rewrite hd_error_app_word; apply (keyword304_starts Hkw).
    + apply boundary_after_word; [|exact Hb'].
      destruct S1 as (_ & _ & V). rewrite V. apply (keyword304_ends _ Hkw).
    + apply -> in_ends_opt in H. destruct H as [H| ->]; [|now left].
      right. apply -> in_ends_cat in H. destruct H as (m' & Hm' & He).
      apply in_ends_plus_space in Hm'. destruct Hm' as (ws & Hws & S2).
      apply in_ends_plus_word in He. destruct He as (tok & Htok & S3).
      exists ws, tok. do 2 (split; [assumption|]). apply (span_app S2 S3).
  - intros (kw & m & Hkw & S1 & Hb & Ha & He).
    apply in_ends_boundary. split.
    { apply boundary_before_word; [|exact Hb].
      destruct S1 as (R & _ & _). rewrite R.
      rewrite hd_error_app_word; apply (keyword304_starts Hkw). }
    apply in_ends_lits. exists kw, m. do 2 (split; [assumption|]).
    change [Boundary; Opt (Cat (Plus Space) (Plus Word))]
      with ([Boundary] ++ [Opt (Cat (Plus Space) (Plus Word))]).
    apply in_ends_boundary. split.
    { apply boundary_after_word; [|exact Ha].
      destruct S1 as (_ & _ & V). rewrite V. apply (keyword304_ends _ Hkw). }
    apply in_ends_single. apply in_ends_opt.
    destruct He as [->|(ws & tok & Hws & Htok & S2)]; [now right|].
    left. apply in_ends_cat.
    destruct (span_split _ _ S2) as (m' & S3 & S4).
    exists m'. split.
    + apply in_ends_plus_space. now exists ws.
    + apply in_ends_plus_word. now exists tok.
Qed.

End PatternFacts.

(** ** [finditer] when the pattern matches nowhere, or at one offset *)

Section FinditerFacts.

Variable uni_alnum : N -> bool.
Variable r : regex.

Local Abbreviation ends := (ends uni_alnum).
Local Abbreviation finditer_from := (finditer_from uni_alnum).

Lemma cursor_at_app (a b : pystr) :
  cursor_at (a ++ b) (List.length a) =
  Cursor (List.length a) (last_or None a) b.
Proof.
  unfold cursor_at. rewrite firstn_app, firstn_all, Nat.sub_diag.
  rewrite skipn_app, skipn_all, Nat.sub_diag. simpl.
  now rewrite app_nil_r.
Qed.

Lemma finditer_from_snoc (k : nat) (a : pystr) (x : N) (b : pystr) :
  finditer_from r k (S (List.length a)) (Some x) b =
  finditer_from r k (List.length (a ++ [x])) (last_or None (a ++ [x])) b.
Proof.
  rewrite last_or_snoc, length_app. simpl.
  now replace (List.length a + 1) with (S (List.length a)) by lia.
Qed.

(** No match from offset [length a] on: nothing is reported. *)
Lemma finditer_from_quiet (text : pystr) :
  forall (b a : pystr) (skip : nat),
    text = a ++ b ->
    (forall q, List.length a <= q -> ends r (cursor_at text q) = []) ->
    finditer_from r skip (List.length a) (last_or None a) b = [].
Proof.
  induction b as [|x b IH]; intros a skip E Hq.
  - destruct skip; simpl; [|reflexivity].
    rewrite <- cursor_at_app, <- E, Hq by lia. reflexivity.
  - assert (Hnext : forall k,
      finditer_from r k (S (List.length a)) (Some x) b = []).
    { intros k. rewrite finditer_from_snoc. apply IH.
      - rewrite <- app_assoc. exact E.
      - intros q Hle. apply Hq. rewrite length_app in Hle. lia. }
    destruct skip; simpl; [|apply Hnext].
    rewrite <- cursor_at_app, <- E, Hq by lia. apply Hnext.
Qed.

(** One match, at offset [p0]: it is the only one reported. *)
Lemma finditer_from_single (text : pystr) (p0 : nat) (e0 : cursor)
    (more : list cursor) :
  ends r (cursor_at text p0) = e0 :: more ->
  p0 < c_pos e0 ->
  (forall q, q <> p0 -> ends r (cursor_at text q) = []) ->
  forall (b a : pystr),
    text = a ++ b ->
    List.length a <= p0 <= List.length text ->
    finditer_from r 0 (List.length a) (last_or None a) b = [(p0, c_pos e0)].
Proof.
  intros H0 Hadv Hq. induction b as [|x b IH]; intros a E Hp.
  - assert (List.length a = p0)
      by (rewrite E, length_app in Hp; simpl in Hp; lia).
    simpl. rewrite <- cursor_at_app, <- E, H, H0.
    replace (c_pos e0 =? p0) with false by (symmetry; apply Nat.eqb_neq; lia).
    reflexivity.
  - simpl. rewrite <- cursor_at_app, <- E.
    destruct (Nat.eq_dec (List.length a) p0) as [Heq|Hne].
    + rewrite Heq, H0.
      replace (c_pos e0 =? p0) with false
        by (symmetry; apply Nat.eqb_neq; lia).
      f_equal. rewrite <- Heq.
      rewrite finditer_from_snoc.
      apply (finditer_from_quiet (text := text)).
      * rewrite <- app_assoc. exact E.
      * intros q Hle. apply Hq. rewrite length_app in Hle. simpl in Hle. lia.
    + rewrite Hq by exact Hne.
      rewrite finditer_from_snoc.
      apply IH.
      * rewrite <- app_assoc. exact E.
      * rewrite length_app. simpl. lia.
Qed.

End FinditerFacts.

(** ** Matches and occurrences in a text *)

Section Occurrences.

Variable uni_alnum : N -> bool.

Local Abbreviation ends := (ends uni_alnum).
Local Abbreviation finditer := (finditer uni_alnum).

Lemma nonempty_in (A : Type) (l : list A) : l <> [] <-> exists x, In x l.
Proof.
  destruct l as [|x l]; simpl; split.
  - congruence.
  - intros [x []].
  - intros _. exists x. now left.
  - discriminate.
Qed.

(** The text around a cursor that lies [w] before another. *)
Lemma cursor_at_span (text : pystr) (p : nat) (w : pystr) (e : cursor) :
  w <> [] -> span (cursor_at text p) w e ->
  text = firstn p text ++ w ++ c_rest e /\ List.length (firstn p text) = p.
Proof.
  intros Hw (R & _ & _). simpl in R. split.
  - rewrite <- R. symmetry. apply firstn_skipn.
  - apply firstn_length_le.
    destruct (Nat.le_gt_cases p (List.length text)) as [H|H]; [exact H|].
    rewrite skipn_all2 in R by lia.
    destruct w; [congruence | discriminate].
Qed.

Lemma span_from_cursor_at (pre w post : pystr) :
  span (cursor_at (pre ++ w ++ post) (List.length pre)) w
       (Cursor (List.length pre + List.length w)
               (last_or (last_or None pre) w) post).
Proof. rewrite cursor_at_app. unfold span. simpl. auto. Qed.

Lemma hit303_iff (text : pystr) (p : nat) :
  ends SET_EXT_CHECK_RE (cursor_at text p) <> [] <->
  occurs303 uni_alnum text p.
Proof.
  rewrite nonempty_in. split.
  - intros (e & He). apply in_ends_303 in He.
    destruct He as (ph & Hph & Hs & Hb & Ha).
    assert (Hne : ph <> []).
    { pose proof (phrase303_starts uni_alnum Hph) as [_ L].
      intros ->. simpl in L. lia. }
    destruct (cursor_at_span Hne Hs) as [E L].
    exists (firstn p text), ph, (c_rest e). auto.
  - intros (pre & ph & post & -> & <- & Hph & Hb & Ha).
    eexists. apply in_ends_303. exists ph.
    split; [exact Hph|]. split; [apply span_from_cursor_at|].
    rewrite cursor_at_app. simpl. auto.
Qed.

Lemma hit304_iff (text : pystr) (p : nat) :
  ends BREAKPOINT_RE (cursor_at text p) <> [] <->
  occurs304 uni_alnum text p.
Proof.
  rewrite nonempty_in. split.
  - intros (e & He). apply in_ends_304 in He.
    destruct He as (kw & m & Hkw & Hs & Hb & Ha & _).
    assert (Hne : kw <> []).
    { pose proof (keyword304_starts uni_alnum Hkw) as [_ L].
      intros ->. simpl in L. lia. }
    destruct (cursor_at_span Hne Hs) as [E L].
    exists (firstn p text), kw, (c_rest m). auto.
  - intros (pre & kw & post & -> & <- & Hkw & Hb & Ha).
    eexists. apply in_ends_304. exists kw. eexists.
    split; [exact Hkw|]. split; [apply span_from_cursor_at|].
    rewrite cursor_at_app. simpl. auto.
Qed.

Lemma advance303 (c e : cursor) :
  In e (ends SET_EXT_CHECK_RE c) -> c_pos c < c_pos e.
Proof.
  intros He. apply in_ends_303 in He. destruct He as (ph & Hph & Hs & _).
  pose proof (phrase303_starts uni_alnum Hph) as [_ L].
  rewrite (span_advances Hs). lia.
Qed.

Lemma advance304 (c e : cursor) :
  In e (ends BREAKPOINT_RE c) -> c_pos c < c_pos e.
Proof.
  intros He. apply in_ends_304 in He.
  destruct He as (kw & m & Hkw & Hs & _ & _ & Hcase).
  pose proof (keyword304_starts uni_alnum Hkw) as [_ L].
  pose proof (span_advances Hs) as P.
  destruct Hcase as [->|(ws & tok & _ & _ & Hs')]; [lia|].
  rewrite (span_advances Hs'). lia.
Qed.

Lemma occurs303_bound (text : pystr) (p : nat) :
  occurs303 uni_alnum text p -> p <= List.length text.
Proof.
  intros (pre & ph & post & -> & <- & _). rewrite length_app. lia.
Qed.

Lemma occurs304_bound (text : pystr) (p : nat) :
  occurs304 uni_alnum text p -> p <= List.length text.
Proof.
  intros (pre & ph & post & -> & <- & _). rewrite length_app. lia.
Qed.

(** [finditer] for a pattern whose matches are the occurrences [occ] and
    are never empty. *)
Section OneRule.

Variable r : regex.
Variable occ : pystr -> nat -> Prop.
Hypothesis hit_iff :
  forall text p, ends r (cursor_at text p) <> [] <-> occ text p.
Hypothesis advance : forall c e, In e (ends r c) -> c_pos c < c_pos e.
Hypothesis occ_bound : forall text p, occ text p -> p <= List.length text.

Lemma finditer_none (text : pystr) :
  (forall q, ~ occ text q) -> finditer r text = [].
Proof.
  intros Hq. unfold finditer.
  apply (@finditer_from_quiet uni_alnum r text text [] 0 eq_refl).
  intros q _. destruct (ends r (cursor_at text q)) eqn:E; [reflexivity|].
  exfalso. apply (Hq q). apply hit_iff. rewrite E. discriminate.
Qed.

Lemma finditer_once (text : pystr) (p : nat) :
  occ text p -> (forall q, occ text q -> q = p) ->
  exists e, finditer r text = [(p, e)].
Proof.
  intros Hp Hq. pose proof (proj2 (hit_iff text p) Hp) as Hhit.
  destruct (ends r (cursor_at text p)) as [|e0 more] eqn:E; [congruence|].
  exists (c_pos e0). unfold finditer.
  assert (Hadv : p < c_pos e0).
  { apply (advance (cursor_at text p)). rewrite E. now left. }
  assert (Hothers : forall q, q <> p -> ends r (cursor_at text q) = []).
  { intros q Hne. destruct (ends r (cursor_at text q)) eqn:E'; [reflexivity|].
    exfalso. apply Hne, Hq, hit_iff. rewrite E'. discriminate. }
  apply (@finditer_from_single uni_alnum r text p e0 more E Hadv Hothers
           text [] eq_refl).
  simpl. split; [lia|]. now apply occ_bound.
Qed.

End OneRule.

Lemma finditer_none303 (text : pystr) :
  (forall q, ~ occurs303 uni_alnum text q) ->
  finditer SET_EXT_CHECK_RE text = [].
Proof. apply (@finditer_none _ _ hit303_iff). Qed.

Lemma finditer_once303 (text : pystr) (p : nat) :
  occurs303 uni_alnum text p ->
  (forall q, occurs303 uni_alnum text q -> q = p) ->
  exists e, finditer SET_EXT_CHECK_RE text = [(p, e)].
Proof. apply (@finditer_once _ _ hit303_iff advance303 occurs303_bound). Qed.

Lemma finditer_none304 (text : pystr) :
  (forall q, ~ occurs304 uni_alnum text q) ->
  finditer BREAKPOINT_RE text = [].
Proof. apply (@finditer_none _ _ hit304_iff). Qed.

Lemma finditer_once304 (text : pystr) (p : nat) :
  occurs304 uni_alnum text p ->
  (forall q, occurs304 uni_alnum text q -> q = p) ->
  exists e, finditer BREAKPOINT_RE text = [(p, e)].
Proof. apply (@finditer_once _ _ hit304_iff advance304 occurs304_bound). Qed.

End Occurrences.

(** ** The findings of a scan *)

Lemma make_finding_lines (unit : Unit) (src : pystr) (s : nat) (e : Z)
    (issue msg sug : pystr) :
  let f := make_finding unit src (Z.of_nat s) e issue msg sug in
  starting_line f = Some (start_line unit + line_in_block src s)%Z /\
  ending_line f = starting_line f.
Proof.
  simpl. rewrite count_prefix. unfold line_in_block.
  split; [f_equal; lia | reflexivity].
Qed.

Lemma make_finding_snippet (unit : Unit) (src : pystr) (s : nat) (e : Z)
    (issue msg sug : pystr) :
  s <= List.length src ->
  exists line,
    snippet (make_finding unit src (Z.of_nat s) e issue msg sug) = Some line /\
    physical_line src s line.
Proof.
  intros Hs. pose proof (extract_line_is_physical src Hs) as H.
  exists (extract_line src (Z.of_nat s)). split; [|exact H].
  simpl. f_equal. apply replace_free. apply (physical_line_free H).
Qed.


Lemma fold_left_append (A B : Type) (f : A -> B) (l : list A) (acc : list B) :
  fold_left (fun acc m => acc ++ [f m]) l acc = acc ++ List.map f l.
Proof.
  revert acc. induction l as [|x l IH]; intros acc; simpl.
  - now rewrite app_nil_r.
  - now rewrite IH, <- app_assoc.
Qed.

Lemma of_rule_app (issue : pystr) (l1 l2 : list Finding) :
  of_rule issue (l1 ++ l2) = of_rule issue l1 ++ of_rule issue l2.
Proof. apply filter_app. Qed.

Lemma of_rule_same (issue : pystr) (l : list Finding) :
  Forall (fun f => issues_type f = Some issue) l -> of_rule issue l = l.
Proof.
  induction 1 as [|f l Hf _ IH]; simpl; [reflexivity|].
  rewrite Hf. unfold PyStr.eqb.
  destruct (list_eq_dec N.eq_dec issue issue); [|congruence].
  now rewrite IH.
Qed.

Lemma of_rule_other (issue other : pystr) (l : list Finding) :
  other <> issue ->
  Forall (fun f => issues_type f = Some other) l -> of_rule issue l = [].
Proof.
  intros Hne. induction 1 as [|f l Hf _ IH]; simpl; [reflexivity|].
  rewrite Hf. unfold PyStr.eqb.
  destruct (list_eq_dec N.eq_dec other issue); [congruence | exact IH].
Qed.

Lemma rules_differ : ISSUE_303 <> ISSUE_304.
Proof. discriminate. Qed.

Section ScanFacts.

Variable uni_alnum : N -> bool.


Lemma run_rule_eq (unit : Unit) (src : pystr) (re : regex)
    (issue msg sug : pystr) (fnds : list Finding) :
  run_rule uni_alnum unit src re issue msg sug fnds =
  fnds ++ List.map
            (fun m => make_finding unit src (Z.of_nat (fst m))
                        (Z.of_nat (snd m)) issue msg sug)
            (finditer uni_alnum re src).
Proof. unfold run_rule. apply fold_left_append. Qed.

(** The findings are those of Rule 303 in match order, then those of
    Rule 304 in match order. *)
Lemma collect_eq (unit : Unit) :
  collect uni_alnum unit =
  List.map (fun m => make_finding unit (src_of unit) (Z.of_nat (fst m))
                       (Z.of_nat (snd m)) ISSUE_303 MSG_303 SUG_303)
           (finditer uni_alnum SET_EXT_CHECK_RE (src_of unit))
  ++
  List.map (fun m => make_finding unit (src_of unit) (Z.of_nat (fst m))
                       (Z.of_nat (snd m)) ISSUE_304 MSG_304 SUG_304)
           (finditer uni_alnum BREAKPOINT_RE (src_of unit)).
Proof. unfold collect. now rewrite !run_rule_eq. Qed.

Lemma findings_of_scan (unit : Unit) :
  findings_of (scan_unit uni_alnum unit) = collect uni_alnum unit.
Proof.
  unfold scan_unit, findings_of. simpl.
  now destruct (collect uni_alnum unit).
Qed.

Lemma findings_scan (unit : Unit) :
  findings (scan_unit uni_alnum unit) = or_none (collect uni_alnum unit).
Proof. reflexivity. Qed.

Lemma of_rule_map_same (issue msg sug : pystr) (unit : Unit) (src : pystr)
    (l : list (nat * nat)) :
  of_rule issue
    (List.map (fun m => make_finding unit src (Z.of_nat (fst m))
                          (Z.of_nat (snd m)) issue msg sug) l)
  = List.map (fun m => make_finding unit src (Z.of_nat (fst m))
                         (Z.of_nat (snd m)) issue msg sug) l.
Proof.
  apply of_rule_same. apply Forall_forall. intros f Hf.
  apply in_map_iff in Hf. destruct Hf as (m & <- & _). reflexivity.
Qed.

Lemma of_rule_map_other (issue other msg sug : pystr) (unit : Unit)
    (src : pystr) (l : list (nat * nat)) :
  other <> issue ->
  of_rule issue
    (List.map (fun m => make_finding unit src (Z.of_nat (fst m))
                          (Z.of_nat (snd m)) other msg sug) l)
  = [].
Proof.
  intros Hne. apply of_rule_other with (other := other); [exact Hne|].
  apply Forall_forall. intros f Hf.
  apply in_map_iff in Hf. destruct Hf as (m & <- & _). reflexivity.
Qed.

Lemma of_rule303_scan (unit : Unit) :
  of_rule ISSUE_303 (findings_of (scan_unit uni_alnum unit)) =
  List.map (fun m => make_finding unit (src_of unit) (Z.of_nat (fst m))
                       (Z.of_nat (snd m)) ISSUE_303 MSG_303 SUG_303)
           (finditer uni_alnum SET_EXT_CHECK_RE (src_of unit)).
Proof.
  rewrite findings_of_scan, collect_eq, of_rule_app, of_rule_map_same.
  rewrite of_rule_map_other; [apply app_nil_r|].
  intros H. symmetry in H. revert H. apply rules_differ.
Qed.

Lemma of_rule304_scan (unit : Unit) :
  of_rule ISSUE_304 (findings_of (scan_unit uni_alnum unit)) =
  List.map (fun m => make_finding unit (src_of unit) (Z.of_nat (fst m))
                       (Z.of_nat (snd m)) ISSUE_304 MSG_304 SUG_304)
           (finditer uni_alnum BREAKPOINT_RE (src_of unit)).
Proof.
  rewrite findings_of_scan, collect_eq, of_rule_app, of_rule_map_same.
  rewrite of_rule_map_other; [reflexivity | apply rules_differ].
Qed.

End ScanFacts.

(** ** Deciding occurrences by running the pattern *)

Section Decide.

Variable uni_alnum : N -> bool.

Lemma matches_at_303 (text : pystr) (q : nat) :
  matches_at uni_alnum SET_EXT_CHECK_RE text q = true <->
  occurs303 uni_alnum text q.
Proof.
  rewrite <- hit303_iff. unfold matches_at.
  destruct (ends uni_alnum SET_EXT_CHECK_RE (cursor_at text q));
    split; congruence.
Qed.

Lemma matches_at_304 (text : pystr) (q : nat) :
  matches_at uni_alnum BREAKPOINT_RE text q = true <->
  occurs304 uni_alnum text q.
Proof.
  rewrite <- hit304_iff. unfold matches_at.
  destruct (ends uni_alnum BREAKPOINT_RE (cursor_at text q));
    split; congruence.
Qed.

Lemma matches_only_at_spec (r : regex) (text : pystr) (p q : nat) :
  matches_only_at uni_alnum r text p = true ->
  q <= List.length text ->
  (matches_at uni_alnum r text q = true <-> q = p).
Proof.
  unfold matches_only_at. intros H Hq.
  rewrite forallb_forall in H.
  assert (Hin : In q (seq 0 (S (List.length text)))) by (apply in_seq; lia).
  specialize (H q Hin). apply eqb_prop in H. rewrite <- H.
  apply Nat.eqb_eq.
Qed.

Lemma only303 (text : pystr) (p : nat) :
  p <= List.length text ->
  matches_only_at uni_alnum SET_EXT_CHECK_RE text p = true ->
  occurs303 uni_alnum text p /\
  (forall q, occurs303 uni_alnum text q -> q = p).
Proof.
  intros Hp H. split.
  - apply matches_at_303. now apply (matches_only_at_spec _ _ _ H Hp).
  - intros q Hq. pose proof (occurs303_bound Hq) as Hb.
    apply (matches_only_at_spec _ _ _ H Hb). now apply matches_at_303.
Qed.

Lemma only304 (text : pystr) (p : nat) :
  p <= List.length text ->
  matches_only_at uni_alnum BREAKPOINT_RE text p = true ->
  occurs304 uni_alnum text p /\
  (forall q, occurs304 uni_alnum text q -> q = p).
Proof.
  intros Hp H. split.
  - apply matches_at_304. now apply (matches_only_at_spec _ _ _ H Hp).
  - intros q Hq. pose proof (occurs304_bound Hq) as Hb.
    apply (matches_only_at_spec _ _ _ H Hb). now apply matches_at_304.
Qed.

Lemma matches_nowhere_spec (r : regex) (text : pystr) (q : nat) :
  matches_nowhere uni_alnum r text = true ->
  q <= List.length text ->
  matches_at uni_alnum r text q = false.
Proof.
  unfold matches_nowhere. intros H Hq. rewrite forallb_forall in H.
  assert (Hin : In q (seq 0 (S (List.length text)))) by (apply in_seq; lia).
  specialize (H q Hin). now apply negb_true_iff in H.
Qed.

End Decide.

(** ** Every match starts inside the text *)

Section Bounds.

Variable uni_alnum : N -> bool.
Variable r : regex.

Lemma finditer_from_bound :
  forall (rest : pystr) (skip pos : nat) (prev : option N) (m : nat * nat),
    In m (finditer_from uni_alnum r skip pos prev rest) ->
    pos <= fst m <= pos + List.length rest.
Proof.
  induction rest as [|x rest IH]; intros skip pos prev m Hm.
  - simpl in Hm. destruct skip; [|destruct Hm].
    destruct (ends uni_alnum r (Cursor pos prev [])) as [|e more];
      [destruct Hm|].
    destruct (c_pos e =? pos).
    + destruct Hm as [<-|Hm]; [simpl; lia|].
      destruct (List.find (fun e' => negb (c_pos e' =? pos)) more);
        [|destruct Hm].
      destruct Hm as [<-|[]]. simpl. lia.
    + destruct Hm as [<-|[]]. simpl. lia.
  - assert (Hnext : forall k,
      In m (finditer_from uni_alnum r k (S pos) (Some x) rest) ->
      pos <= fst m <= pos + List.length (x :: rest)).
    { intros k H. apply IH in H. simpl. lia. }
    simpl in Hm. destruct skip; [|now apply Hnext in Hm].
    destruct (ends uni_alnum r (Cursor pos prev (x :: rest))) as [|e more];
      [now apply Hnext in Hm|].
    destruct (c_pos e =? pos).
    + destruct Hm as [<-|Hm]; [simpl; lia|].
      destruct (List.find (fun e' => negb (c_pos e' =? pos)) more).
      * destruct Hm as [<-|Hm]; [simpl; lia | now apply Hnext in Hm].
      * now apply Hnext in Hm.
    + destruct Hm as [<-|Hm]; [simpl; lia | now apply Hnext in Hm].
Qed.

Lemma finditer_bound (text : pystr) (m : nat * nat) :
  In m (finditer uni_alnum r text) -> fst m <= List.length text.
Proof. intros H. apply finditer_from_bound in H. simpl in H. lia. Qed.

(** Matches are reported from left to right. *)
Lemma finditer_from_sorted :
  forall (rest : pystr) (skip pos : nat) (prev : option N),
    StronglySorted (fun a b : nat * nat => fst a <= fst b)
      (finditer_from uni_alnum r skip pos prev rest).
Proof.
  assert (Hcons : forall (pos s e : nat) (l : list (nat * nat)),
    s <= pos ->
    (forall m, In m l -> pos <= fst m) ->
    StronglySorted (fun a b : nat * nat => fst a <= fst b) l ->
    StronglySorted (fun a b : nat * nat => fst a <= fst b) ((s, e) :: l)).
  { intros pos s e l Hs Hl Hsorted. constructor; [exact Hsorted|].
    apply Forall_forall. intros m Hm. apply Hl in Hm. simpl. lia. }
  induction rest as [|x rest IH]; intros skip pos prev.
  - simpl. destruct skip; [|constructor].
    destruct (ends uni_alnum r (Cursor pos prev [])) as [|e more];
      [constructor|].
    destruct (c_pos e =? pos).
    + destruct (List.find (fun e' => negb (c_pos e' =? pos)) more);
        repeat (constructor; simpl; auto).
    + repeat constructor.
  - assert (Hb : forall k m,
      In m (finditer_from uni_alnum r k (S pos) (Some x) rest) ->
      pos <= fst m).
    { intros k m Hm. apply finditer_from_bound in Hm. lia. }
    simpl. destruct skip; [|apply IH].
    destruct (ends uni_alnum r (Cursor pos prev (x :: rest))) as [|e more];
      [apply IH|].
    destruct (c_pos e =? pos).
    + destruct (List.find (fun e' => negb (c_pos e' =? pos)) more).
      * apply (Hcons pos); [lia | | ].
        -- intros m [<-|Hm]; [simpl; lia | now apply Hb in Hm].
        -- apply (Hcons pos); [lia | apply Hb | apply IH].
      * apply (Hcons pos); [lia | apply Hb | apply IH].
    + apply (Hcons pos); [lia | apply Hb | apply IH].
Qed.

Lemma finditer_sorted (text : pystr) :
  StronglySorted (fun a b : nat * nat => fst a <= fst b)
    (finditer uni_alnum r text).
Proof. apply finditer_from_sorted. Qed.

End Bounds.

(** ** The engine on sample texts

    The spans [re.finditer] reports for the two patterns, on texts that
    stay within the tabulated characters. *)

Example trailing_token_is_consumed :
  finditer no_alnum BREAKPOINT_RE (str "BREAK-POINT BREAK-POINT") = [(0, 17)].
Proof. reflexivity. Qed.

Example token_on_next_line :
  finditer no_alnum BREAKPOINT_RE
    (str "break-point" ++ [LF] ++ str " id rest") = [(0, 15)].
Proof. reflexivity. Qed.

Example no_token_after_white_space :
  finditer no_alnum BREAKPOINT_RE (str "BREAK-POINT" ++ [TAB; LF])
  = [(0, 11)].
Proof. reflexivity. Qed.

Example three_statements :
  finditer no_alnum BREAKPOINT_RE
    (str "BREAK-POINT. BREAK-POINT ID. break-point")
  = [(0, 11); (13, 27); (29, 40)].
Proof. reflexivity. Qed.

Example underscore_is_a_word_character :
  finditer no_alnum BREAKPOINT_RE (str "lv_break-point = 1.") = [] /\
  finditer no_alnum BREAKPOINT_RE (str "BREAK-POINT_X") = [].
Proof. split; reflexivity. Qed.

Example hyphen_is_not_a_word_character :
  finditer no_alnum BREAKPOINT_RE (str "MY-BREAK-POINT-X") = [(3, 14)].
Proof. reflexivity. Qed.

Example phrase_over_lines :
  finditer no_alnum SET_EXT_CHECK_RE
    (str "SET" ++ [LF] ++ str "EXTENDED" ++ [160%N] ++ str "CHECK.")
  = [(0, 18)].
Proof. reflexivity. Qed.

Example phrase_needs_white_space :
  finditer no_alnum SET_EXT_CHECK_RE (str "SETEXTENDEDCHECK") = [] /\
  finditer no_alnum SET_EXT_CHECK_RE (str "XSET EXTENDED CHECK") = [].
Proof. split; reflexivity. Qed.

Example phrase_twice :
  finditer no_alnum SET_EXT_CHECK_RE
    (str "SET EXTENDED CHECK SET EXTENDED CHECK") = [(0, 18); (19, 37)].
Proof. reflexivity. Qed.

Example empty_matches :
  finditer no_alnum (Opt (Lit 97)) (str "ba") = [(0, 0); (1, 2); (2, 2)] /\
  finditer no_alnum (Opt (Cat (Plus Space) (Plus Word))) (str " ab  ")
  = [(0, 3); (3, 3); (4, 4); (5, 5)].
Proof. split; reflexivity. Qed.

Example greedy_rounds :
  finditer no_alnum (Cat (Plus Space) (Plus Word)) (str " ab  cd e")
  = [(0, 3); (3, 7); (7, 9)].
Proof. reflexivity. Qed.

Example letters_outside_ascii :
  finditer no_alnum SET_EXT_CHECK_RE
    ([LONG_S] ++ str "et extended chec" ++ [KELVIN]) = [(0, 18)] /\
  finditer no_alnum BREAKPOINT_RE
    (str "BREAK-PO" ++ [I_DOT] ++ str "NT " ++ [DOTLESS_I] ++ str "d")
  = [(0, 14)].
Proof. split; reflexivity. Qed.

(** * Properties of the specification *)

(** C1. For every unit and every match, the finding's starting line is
    the unit's [start_line] plus [line_in_block] (1 plus the number of
    line breaks strictly before the match's start offset), and the
    ending line equals it: the findings of a scan are, in order, one per
    match of Rule 303 and then one per match of Rule 304, each with this
    line. A unit with [start_line = 100] and the code
    ["DATA: lv_x TYPE i.\nBREAK-POINT.\n"] yields exactly one finding,
    with starting and ending line 102. *)
Theorem C1_absolute_line :
  forall (uni_alnum : N -> bool),
    (forall unit : Unit,
        Forall2
          (fun m f =>
             starting_line f =
               Some (start_line unit + line_in_block (src_of unit) (fst m))%Z
             /\ ending_line f = starting_line f)
          (finditer uni_alnum SET_EXT_CHECK_RE (src_of unit)
           ++ finditer uni_alnum BREAKPOINT_RE (src_of unit))
          (findings_of (scan_unit uni_alnum unit)))
    /\
    (forall (pn inn ty : pystr) (nm ci : option pystr) (el : Z)
            (fs : option (list Finding)),
        let unit :=
          {| pgm_name := pn; inc_name := inn; type := ty; name := nm;
             class_implementation := ci; start_line := 100; end_line := el;
             code := Some (str "DATA: lv_x TYPE i." ++ [LF]
                           ++ str "BREAK-POINT." ++ [LF]);
             findings := fs |} in
        exists f,
          findings (scan_unit uni_alnum unit) = Some [f] /\
          starting_line f = Some 102%Z /\ ending_line f = Some 102%Z).
Proof.
  intros uni_alnum. split.
  - intros unit. rewrite findings_of_scan, collect_eq.
    apply Forall2_app.
    + induction (finditer uni_alnum SET_EXT_CHECK_RE (src_of unit));
        simpl; constructor; auto. apply make_finding_lines.
    + induction (finditer uni_alnum BREAKPOINT_RE (src_of unit));
        simpl; constructor; auto. apply make_finding_lines.
  - intros pn inn ty nm ci el fs unit.
    set (text := str "DATA: lv_x TYPE i." ++ [LF] ++ str "BREAK-POINT."
                 ++ [LF]).
    assert (H3 : finditer uni_alnum SET_EXT_CHECK_RE text = [])
      by (vm_compute; reflexivity).
    assert (H4 : finditer uni_alnum BREAKPOINT_RE text = [(19, 30)])
      by (vm_compute; reflexivity).
    exists (make_finding unit text (Z.of_nat 19) (Z.of_nat 30)
              ISSUE_304 MSG_304 SUG_304).
    split; [|split].
    + rewrite findings_scan, collect_eq.
      change (src_of unit) with text. rewrite H3, H4. reflexivity.
    + vm_compute. reflexivity.
    + vm_compute. reflexivity.
Qed.

(** C2. When the phrase SET EXTENDED CHECK, in any letter case, with
    white space between its three tokens and bounded by word boundaries,
    occurs once in the code of a unit, at an offset on line [k] of the
    unit, the scan produces exactly one finding of Rule 303, and its
    starting line is [start_line + k]. *)
Theorem C2_rule303_once :
  forall (uni_alnum : N -> bool) (unit : Unit) (p : nat),
    occurs303 uni_alnum (src_of unit) p ->
    (forall q, occurs303 uni_alnum (src_of unit) q -> q = p) ->
    exists f,
      of_rule ISSUE_303 (findings_of (scan_unit uni_alnum unit)) = [f] /\
      issues_type f = Some ISSUE_303 /\
      starting_line f =
        Some (start_line unit + line_in_block (src_of unit) p)%Z.
Proof.
  intros uni_alnum unit p Hocc Honce.
  rewrite of_rule303_scan.
  destruct (finditer_once303 Hocc Honce) as [e ->].
  eexists. split; [reflexivity|]. split; [reflexivity|].
  apply make_finding_lines.
Qed.

Lemma C2_rule303_once_witness :
  occurs303 no_alnum text_303 10 /\
  (forall q, occurs303 no_alnum text_303 q -> q = 10) /\
  line_in_block text_303 10 = 2%Z /\
  exists f,
    of_rule ISSUE_303
      (findings_of (scan_unit no_alnum (example_unit 40 (Some text_303))))
    = [f] /\
    issues_type f = Some ISSUE_303 /\
    starting_line f = Some 42%Z.
Proof.
  assert (Hb : 10 <= List.length text_303) by (vm_compute; lia).
  assert (Hm : matches_only_at no_alnum SET_EXT_CHECK_RE text_303 10 = true)
    by (vm_compute; reflexivity).
  destruct (@only303 no_alnum text_303 10 Hb Hm) as [Hocc Honce].
  split; [exact Hocc|]. split; [exact Honce|]. split; [reflexivity|].
  exact (C2_rule303_once (example_unit 40 (Some text_303)) Hocc Honce).
Defined.

Section OccurrenceForms.

Variable uni_alnum : N -> bool.

Lemma occurs304_with_token_occurs (text : pystr) (p : nat) :
  occurs304_with_token uni_alnum text p -> occurs304 uni_alnum text p.
Proof.
  intros (pre & kw & ws & tok & post & -> & <- & Hkw & Hb & Hws & _ & _).
  exists pre, kw, (ws ++ tok ++ post).
  repeat split; auto.
  destruct Hws as [Hne Hall]. destruct ws as [|x ws]; [congruence|].
  inversion Hall; subst. unfold free_after. simpl.
  now apply space_not_word.
Qed.

End OccurrenceForms.

(** C3. When the word-bounded keyword BREAK-POINT occurs exactly once in
    the code of a unit and is followed by white space and one trailing
    word token, the scan produces exactly one finding of Rule 304; its
    snippet is the full physical line around the start of the keyword
    (from the nearest line break before it, or the start of the text, to
    the nearest line break after it, or the end of the text), and its
    line is the line on which BREAK-POINT starts. *)
Theorem C3_rule304_snippet :
  forall (uni_alnum : N -> bool) (unit : Unit) (p : nat),
    occurs304_with_token uni_alnum (src_of unit) p ->
    (forall q, occurs304 uni_alnum (src_of unit) q -> q = p) ->
    exists f line,
      of_rule ISSUE_304 (findings_of (scan_unit uni_alnum unit)) = [f] /\
      snippet f = Some line /\
      physical_line (src_of unit) p line /\
      starting_line f =
        Some (start_line unit + line_in_block (src_of unit) p)%Z /\
      ending_line f = starting_line f.
Proof.
  intros uni_alnum unit p Htok Honce.
  pose proof (occurs304_with_token_occurs Htok) as Hocc.
  rewrite of_rule304_scan.
  destruct (finditer_once304 Hocc Honce) as [e ->].
  destruct (@make_finding_snippet unit (src_of unit) p (Z.of_nat e)
              ISSUE_304 MSG_304 SUG_304 (occurs304_bound Hocc))
    as (line & Hsn & Hline).
  eexists. exists line. split; [reflexivity|].
  split; [exact Hsn|]. split; [exact Hline|].
  apply make_finding_lines.
Qed.

Lemma C3_rule304_snippet_witness :
  occurs304_with_token no_alnum text_304 8 /\
  (forall q, occurs304 no_alnum text_304 q -> q = 8) /\
  exists f line,
    of_rule ISSUE_304
      (findings_of (scan_unit no_alnum (example_unit 7 (Some text_304))))
    = [f] /\
    snippet f = Some line /\
    physical_line text_304 8 line /\
    starting_line f = Some 9%Z /\
    ending_line f = starting_line f.
Proof.
  assert (Htok : occurs304_with_token no_alnum text_304 8).
  { exists (str "IF a." ++ [LF] ++ str "  "), (str "break-point"),
      (str " "), (str "ID"), (str "." ++ [LF] ++ str "ENDIF.").
    split; [reflexivity|]. split; [reflexivity|].
    split; [repeat constructor|]. split; [reflexivity|].
    split; [split; [discriminate | repeat constructor]|].
    split; [split; [discriminate | repeat constructor]|].
    reflexivity. }
  assert (Hb : 8 <= List.length text_304) by (vm_compute; lia).
  assert (Hm : matches_only_at no_alnum BREAKPOINT_RE text_304 8 = true)
    by (vm_compute; reflexivity).
  destruct (@only304 no_alnum text_304 8 Hb Hm) as [_ Honce].
  split; [exact Htok|]. split; [exact Honce|].
  exact (C3_rule304_snippet (example_unit 7 (Some text_304)) Htok Honce).
Defined.

Section Embedded.

Variable uni_alnum : N -> bool.

Lemma not_free_touch (pre post : pystr) :
  inside_identifier uni_alnum pre post ->
  ~ (free_before uni_alnum pre /\ free_after uni_alnum post).
Proof.
  unfold inside_identifier, free_before, free_after.
  intros [H|H] [H1 H2]; congruence.
Qed.

Lemma touch_or_free (pre post : pystr) :
  inside_identifier uni_alnum pre post \/
  (free_before uni_alnum pre /\ free_after uni_alnum post).
Proof.
  unfold inside_identifier, free_before, free_after.
  destruct (word_opt uni_alnum (last_or None pre));
    destruct (word_opt uni_alnum (hd_error post)); auto.
Qed.

(** A text in which the pattern matches nowhere has the keyword only
    inside longer identifiers, if at all. *)
Lemma nowhere304_inside (text : pystr) :
  matches_nowhere uni_alnum BREAKPOINT_RE text = true ->
  forall pre kw post,
    text = pre ++ kw ++ post -> ci_eq (str "BREAK-POINT") kw ->
    inside_identifier uni_alnum pre post.
Proof.
  intros H pre kw post E Hkw.
  destruct (touch_or_free pre post) as [Ht|[Hb Ha]]; [exact Ht|].
  assert (Hocc : occurs304 uni_alnum text (List.length pre))
    by (exists pre, kw, post; auto).
  pose proof (occurs304_bound Hocc) as Hbound.
  apply matches_at_304 in Hocc.
  rewrite (@matches_nowhere_spec uni_alnum _ _ _ H Hbound) in Hocc. discriminate.
Qed.

Lemma nowhere303_inside (text : pystr) :
  matches_nowhere uni_alnum SET_EXT_CHECK_RE text = true ->
  forall pre ph post,
    text = pre ++ ph ++ post -> phrase303 ph ->
    inside_identifier uni_alnum pre post.
Proof.
  intros H pre ph post E Hph.
  destruct (touch_or_free pre post) as [Ht|[Hb Ha]]; [exact Ht|].
  assert (Hocc : occurs303 uni_alnum text (List.length pre))
    by (exists pre, ph, post; auto).
  pose proof (occurs303_bound Hocc) as Hbound.
  apply matches_at_303 in Hocc.
  rewrite (@matches_nowhere_spec uni_alnum _ _ _ H Hbound) in Hocc. discriminate.
Qed.

End Embedded.

(** C4. When every occurrence of a rule's keyword in the code of a unit
    stands inside a longer identifier (a word character touches it on
    the left or on the right), the scan produces no finding of that
    rule, for Rule 304 and for Rule 303 alike; the code
    ["XBREAK-POINTX"] yields no finding at all. *)
Theorem C4_embedded_keyword :
  forall (uni_alnum : N -> bool),
    (forall unit : Unit,
        (forall pre kw post,
            src_of unit = pre ++ kw ++ post ->
            ci_eq (str "BREAK-POINT") kw ->
            inside_identifier uni_alnum pre post) ->
        of_rule ISSUE_304 (findings_of (scan_unit uni_alnum unit)) = [])
    /\
    (forall unit : Unit,
        (forall pre ph post,
            src_of unit = pre ++ ph ++ post ->
            phrase303 ph ->
            inside_identifier uni_alnum pre post) ->
        of_rule ISSUE_303 (findings_of (scan_unit uni_alnum unit)) = [])
    /\
    (forall (pn inn ty : pystr) (nm ci : option pystr) (sl el : Z)
            (fs : option (list Finding)),
        findings
          (scan_unit uni_alnum
             {| pgm_name := pn; inc_name := inn; type := ty; name := nm;
                class_implementation := ci; start_line := sl;
                end_line := el; code := Some (str "XBREAK-POINTX");
                findings := fs |}) = None).
Proof.
  intros uni_alnum. split; [|split].
  - intros unit H. rewrite of_rule304_scan.
    rewrite finditer_none304; [reflexivity|].
    intros q (pre & kw & post & E & _ & Hkw & Hfree).
    exact (not_free_touch (H pre kw post E Hkw) Hfree).
  - intros unit H. rewrite of_rule303_scan.
    rewrite finditer_none303; [reflexivity|].
    intros q (pre & ph & post & E & _ & Hph & Hfree).
    exact (not_free_touch (H pre ph post E Hph) Hfree).
  - intros pn inn ty nm ci sl el fs.
    rewrite findings_scan, collect_eq.
    change (src_of _) with (str "XBREAK-POINTX").
    assert (H3 : finditer uni_alnum SET_EXT_CHECK_RE (str "XBREAK-POINTX")
                 = []) by (vm_compute; reflexivity).
    assert (H4 : finditer uni_alnum BREAKPOINT_RE (str "XBREAK-POINTX")
                 = []) by (vm_compute; reflexivity).
    rewrite H3, H4. reflexivity.
Qed.

Lemma C4_embedded_keyword_witness :
  of_rule ISSUE_304
    (findings_of
       (scan_unit no_alnum (example_unit 1 (Some (str "XBREAK-POINTX")))))
  = [] /\
  of_rule ISSUE_303
    (findings_of
       (scan_unit no_alnum
          (example_unit 1 (Some (str "lv_set extended check_2 = 1.")))))
  = [].
Proof.
  split.
  - apply (proj1 (C4_embedded_keyword no_alnum)).
    apply nowhere304_inside. vm_compute. reflexivity.
  - apply (proj1 (proj2 (C4_embedded_keyword no_alnum))).
    apply nowhere303_inside. vm_compute. reflexivity.
Defined.

(** C5. When the code of a unit has exactly one occurrence of the phrase
    of Rule 303 and exactly one of the keyword of Rule 304, on two
    different lines, the scan produces exactly two findings: the one of
    Rule 303 first, then the one of Rule 304, each with its own line.
    For every unit the findings are those of the matches of Rule 303,
    from left to right in the text, followed by those of the matches of
    Rule 304, from left to right. *)
Theorem C5_both_rules :
  forall (uni_alnum : N -> bool) (unit : Unit),
    (forall p3 p4 : nat,
        occurs303 uni_alnum (src_of unit) p3 ->
        (forall q, occurs303 uni_alnum (src_of unit) q -> q = p3) ->
        occurs304 uni_alnum (src_of unit) p4 ->
        (forall q, occurs304 uni_alnum (src_of unit) q -> q = p4) ->
        line_in_block (src_of unit) p3 <> line_in_block (src_of unit) p4 ->
        exists f3 f4,
          findings (scan_unit uni_alnum unit) = Some [f3; f4] /\
          issues_type f3 = Some ISSUE_303 /\
          issues_type f4 = Some ISSUE_304 /\
          starting_line f3 =
            Some (start_line unit + line_in_block (src_of unit) p3)%Z /\
          starting_line f4 =
            Some (start_line unit + line_in_block (src_of unit) p4)%Z /\
          starting_line f3 <> starting_line f4)
    /\
    (exists ms3 ms4 : list (nat * nat),
        findings_of (scan_unit uni_alnum unit)
        = List.map (fun m => make_finding unit (src_of unit)
                               (Z.of_nat (fst m)) (Z.of_nat (snd m))
                               ISSUE_303 MSG_303 SUG_303) ms3
          ++
          List.map (fun m => make_finding unit (src_of unit)
                               (Z.of_nat (fst m)) (Z.of_nat (snd m))
                               ISSUE_304 MSG_304 SUG_304) ms4 /\
        StronglySorted (fun a b => fst a <= fst b) ms3 /\
        StronglySorted (fun a b => fst a <= fst b) ms4).
Proof.
  intros uni_alnum unit. split.
  - intros p3 p4 H3 U3 H4 U4 Hlines.
    destruct (finditer_once303 H3 U3) as [e3 E3].
    destruct (finditer_once304 H4 U4) as [e4 E4].
    rewrite findings_scan, collect_eq, E3, E4. simpl List.map.
    eexists. eexists. split; [reflexivity|].
    split; [reflexivity|]. split; [reflexivity|].
    split; [apply make_finding_lines|]. split; [apply make_finding_lines|].
    pose proof (make_finding_lines unit (src_of unit) p3 (Z.of_nat e3)
                  ISSUE_303 MSG_303 SUG_303) as [L3 _].
    pose proof (make_finding_lines unit (src_of unit) p4 (Z.of_nat e4)
                  ISSUE_304 MSG_304 SUG_304) as [L4 _].
    simpl fst. rewrite L3, L4. intros Heq. injection Heq. lia.
  - rewrite findings_of_scan, collect_eq.
    eexists. eexists. split; [reflexivity|].
    split; apply finditer_sorted.
Qed.

Lemma C5_both_rules_witness :
  (occurs303 no_alnum text_both 10 /\
   (forall q, occurs303 no_alnum text_both q -> q = 10)) /\
  (occurs304 no_alnum text_both 43 /\
   (forall q, occurs304 no_alnum text_both q -> q = 43)) /\
  exists f3 f4,
    findings (scan_unit no_alnum (example_unit 10 (Some text_both)))
      = Some [f3; f4] /\
    issues_type f3 = Some ISSUE_303 /\
    issues_type f4 = Some ISSUE_304 /\
    starting_line f3 = Some 12%Z /\
    starting_line f4 = Some 14%Z /\
    starting_line f3 <> starting_line f4.
Proof.
  assert (Hb3 : 10 <= List.length text_both) by (vm_compute; lia).
  assert (Hm3 : matches_only_at no_alnum SET_EXT_CHECK_RE text_both 10 = true)
    by (vm_compute; reflexivity).
  assert (Hb4 : 43 <= List.length text_both) by (vm_compute; lia).
  assert (Hm4 : matches_only_at no_alnum BREAKPOINT_RE text_both 43 = true)
    by (vm_compute; reflexivity).
  pose proof (@only303 no_alnum text_both 10 Hb3 Hm3) as H3.
  pose proof (@only304 no_alnum text_both 43 Hb4 Hm4) as H4.
  assert (Hlines : line_in_block text_both 10 <> line_in_block text_both 43)
    by (vm_compute; discriminate).
  split; [exact H3|]. split; [exact H4|].
  exact (proj1 (C5_both_rules no_alnum (example_unit 10 (Some text_both)))
           10 43 (proj1 H3) (proj2 H3) (proj1 H4) (proj2 H4) Hlines).
Defined.

(** ** Objects in the store *)

Lemma setattr_new (h : store) (u : Unit) (f : Unit -> Unit) :
  setattr (h ++ [u]) (List.length h) f = h ++ [f u].
Proof. induction h as [|x h IH]; simpl; [reflexivity | now rewrite IH]. Qed.

Lemma nth_error_old (h : store) (u : Unit) (r : ref) :
  r < List.length h -> nth_error (h ++ [u]) r = nth_error h r.
Proof. intros H. now apply nth_error_app1. Qed.

Lemma nth_error_new (h : store) (u : Unit) :
  nth_error (h ++ [u]) (List.length h) = Some u.
Proof.
  rewrite nth_error_app2 by lia. now rewrite Nat.sub_diag.
Qed.

Lemma nth_error_valid (h : store) (r : ref) (u : Unit) :
  nth_error h r = Some u -> r < List.length h.
Proof. intros H. apply nth_error_Some. congruence. Qed.

Section ObjectFacts.

Variable uni_alnum : N -> bool.

Lemma scan_unit_obj_spec (h : store) (r : ref) (u : Unit) :
  nth_error h r = Some u ->
  scan_unit_obj uni_alnum r h
  = Some (List.length h, h ++ [scan_unit uni_alnum u]).
Proof.
  intros H. unfold scan_unit_obj, new_object. rewrite H.
  now rewrite setattr_new.
Qed.

End ObjectFacts.

(** C6. A scan is pure and deterministic. On objects: scanning the unit
    at reference [r] returns a new object, leaves every object of the
    store as it was, the input unit with all its fields and its earlier
    findings included, and a second scan of the same input returns a
    structurally identical unit, again without touching the input. *)
Theorem C6_pure_deterministic :
  forall (uni_alnum : N -> bool) (h : store) (r : ref) (u : Unit),
    nth_error h r = Some u ->
    exists out h',
      scan_unit_obj uni_alnum r h = Some (out, h') /\
      out <> r /\
      nth_error h' r = Some u /\
      (forall r', r' < List.length h -> nth_error h' r' = nth_error h r') /\
      nth_error h' out = Some (scan_unit uni_alnum u) /\
      exists out2 h'',
        scan_unit_obj uni_alnum r h' = Some (out2, h'') /\
        nth_error h'' out2 = nth_error h' out /\
        nth_error h'' r = Some u /\
        nth_error h'' out = nth_error h' out.
Proof.
  intros uni_alnum h r u Hr.
  pose proof (nth_error_valid _ _ Hr) as Hlt.
  exists (List.length h), (h ++ [scan_unit uni_alnum u]).
  split; [now apply scan_unit_obj_spec|].
  split; [lia|].
  split; [now rewrite nth_error_old|].
  split; [intros r' Hr'; now apply nth_error_old|].
  split; [apply nth_error_new|].
  assert (Hr' : nth_error (h ++ [scan_unit uni_alnum u]) r = Some u)
    by now rewrite nth_error_old.
  exists (List.length (h ++ [scan_unit uni_alnum u])),
    ((h ++ [scan_unit uni_alnum u]) ++ [scan_unit uni_alnum u]).
  split; [now apply scan_unit_obj_spec|].
  split; [now rewrite !nth_error_new|].
  split.
  - rewrite nth_error_old; [exact Hr'|]. rewrite length_app. simpl. lia.
  - apply nth_error_old. rewrite length_app. simpl. lia.
Qed.

Lemma C6_pure_deterministic_witness :
  exists out h',
    scan_unit_obj no_alnum 0 [unit_stale] = Some (out, h') /\
    out <> 0 /\
    nth_error h' 0 = Some unit_stale /\
    (forall r', r' < 1 -> nth_error h' r' = nth_error [unit_stale] r') /\
    nth_error h' out = Some (scan_unit no_alnum unit_stale) /\
    exists out2 h'',
      scan_unit_obj no_alnum 0 h' = Some (out2, h'') /\
      nth_error h'' out2 = nth_error h' out /\
      nth_error h'' 0 = Some unit_stale /\
      nth_error h'' out = nth_error h' out.
Proof.
  exact (C6_pure_deterministic no_alnum [unit_stale] 0 eq_refl).
Defined.

Section Quiet.

Variable uni_alnum : N -> bool.

Lemma white_no_303 (text : pystr) :
  Forall (fun x => is_space x = true) text ->
  forall q, ~ occurs303 uni_alnum text q.
Proof.
  intros Hall q (pre & ph & post & -> & _ & Hph & _).
  pose proof (phrase303_starts uni_alnum Hph) as [Hw _].
  destruct ph as [|x ph]; [discriminate|]. simpl in Hw.
  apply Forall_app in Hall. destruct Hall as [_ Hall].
  inversion Hall as [|? ? Hx _]; subst.
  rewrite (space_not_word uni_alnum _ Hx) in Hw. discriminate.
Qed.

Lemma white_no_304 (text : pystr) :
  Forall (fun x => is_space x = true) text ->
  forall q, ~ occurs304 uni_alnum text q.
Proof.
  intros Hall q (pre & kw & post & -> & _ & Hkw & _).
  pose proof (keyword304_starts uni_alnum Hkw) as [Hw _].
  destruct kw as [|x kw]; [discriminate|]. simpl in Hw.
  apply Forall_app in Hall. destruct Hall as [_ Hall].
  inversion Hall as [|? ? Hx _]; subst.
  rewrite (space_not_word uni_alnum _ Hx) in Hw. discriminate.
Qed.

End Quiet.

(** C7. A scan always returns a unit, the input's fields with a findings
    list that is absent or not empty. When the code is absent or the
    empty string the findings are absent, and so they are when the code
    is white space only. *)
Theorem C7_always_returns :
  forall (uni_alnum : N -> bool),
    (forall unit : Unit,
        code unit = None \/ code unit = Some [] ->
        findings (scan_unit uni_alnum unit) = None)
    /\
    (forall unit : Unit,
        Forall (fun x => is_space x = true) (src_of unit) ->
        findings (scan_unit uni_alnum unit) = None)
    /\
    (forall unit : Unit,
        exists fs,
          scan_unit uni_alnum unit = set_findings fs unit /\
          (fs = None \/ exists f l, fs = Some (f :: l)))
    /\
    (forall (h : store) (r : ref) (u : Unit),
        nth_error h r = Some u ->
        exists out h', scan_unit_obj uni_alnum r h = Some (out, h')).
Proof.
  intros uni_alnum. split; [|split; [|split]].
  - intros unit Hcode. rewrite findings_scan, collect_eq.
    assert (E : src_of unit = [])
      by (unfold src_of; destruct Hcode as [-> | ->]; reflexivity).
    rewrite E. reflexivity.
  - intros unit Hall. rewrite findings_scan, collect_eq.
    rewrite (finditer_none303 (@white_no_303 uni_alnum _ Hall)).
    rewrite (finditer_none304 (@white_no_304 uni_alnum _ Hall)).
    reflexivity.
  - intros unit. exists (or_none (collect uni_alnum unit)).
    split; [reflexivity|].
    destruct (collect uni_alnum unit) as [|f l]; simpl; eauto.
  - intros h r u Hr. rewrite (@scan_unit_obj_spec uni_alnum _ _ _ Hr). eauto.
Qed.

Lemma C7_always_returns_witness :
  findings (scan_unit no_alnum (example_unit 1 None)) = None /\
  findings (scan_unit no_alnum (example_unit 1 (Some []))) = None /\
  findings (scan_unit no_alnum (example_unit 1 (Some [32; TAB; LF; 32]%N)))
    = None /\
  exists out h',
    scan_unit_obj no_alnum 0 [example_unit 1 None] = Some (out, h').
Proof.
  destruct (C7_always_returns no_alnum) as (Hempty & Hwhite & _ & Hobj).
  split; [apply Hempty; left; reflexivity|].
  split; [apply Hempty; right; reflexivity|].
  split; [apply Hwhite; simpl; repeat constructor|].
  exact (Hobj [example_unit 1 None] 0 _ eq_refl).
Defined.

Section Batch.

Variable uni_alnum : N -> bool.

Lemma scan_array_from (units : list Unit) (results : list Unit) :
  fold_left
    (fun results u =>
       let scanned := scan_unit uni_alnum u in
       if has_findings scanned then results ++ [scanned] else results)
    units results
  = results ++ filter has_findings (List.map (scan_unit uni_alnum) units).
Proof.
  revert results. induction units as [|u units IH]; intros results; simpl.
  - now rewrite app_nil_r.
  - rewrite IH. destruct (has_findings (scan_unit uni_alnum u)).
    + now rewrite <- app_assoc.
    + reflexivity.
Qed.


End Batch.

(** C8. The batch endpoint scans every unit of its input and returns, in
    input order, exactly the scanned units that have a non-empty
    findings list; a unit without findings is left out. The single
    endpoint returns the scanned unit in every case, without findings
    when there are none. *)
Theorem C8_batch_and_single :
  forall (uni_alnum : N -> bool),
    (forall units : list Unit,
        scan_array uni_alnum units
        = filter has_findings (List.map (scan_unit uni_alnum) units))
    /\
    (forall (units : list Unit) (out : Unit),
        In out (scan_array uni_alnum units) <->
        exists u, In u units /\ out = scan_unit uni_alnum u /\
                  exists f l, findings out = Some (f :: l))
    /\
    (forall unit : Unit,
        scan_single uni_alnum unit = scan_unit uni_alnum unit /\
        findings (scan_single uni_alnum unit)
        = or_none (collect uni_alnum unit))
    /\
    (let quiet := example_unit 1 (Some (str "WRITE 1.")) in
     let loud := example_unit 5 (Some (str "BREAK-POINT.")) in
     scan_array uni_alnum [quiet; loud; quiet]
       = [scan_unit uni_alnum loud] /\
     scan_single uni_alnum quiet = quiet).
Proof.
  intros uni_alnum.
  assert (Heq : forall units,
    scan_array uni_alnum units
    = filter has_findings (List.map (scan_unit uni_alnum) units)).
  { intros units. unfold scan_array. now rewrite scan_array_from. }
  split; [exact Heq|]. split; [|split].
  - intros units out. rewrite Heq, filter_In, in_map_iff. split.
    + intros [(u & <- & Hu) Hhas]. exists u. split; [exact Hu|].
      split; [reflexivity|]. unfold has_findings in Hhas.
      destruct (findings (scan_unit uni_alnum u)) as [[|f l]|];
        try discriminate. eauto.
    + intros (u & Hu & -> & f & l & Hf). split; [eauto|].
      unfold has_findings. now rewrite Hf.
  - intros unit. split; reflexivity.
  - cbv zeta. split.
    + rewrite Heq. vm_compute. reflexivity.
    + vm_compute. reflexivity.
Qed.

(** C9, as stated: the findings of a scan depend only on the code of the
    unit and on the identity fields copied into each finding. Two units
    that agree on all of these and differ in [start_line] get different
    findings. *)
Lemma C9_findings_depend_counterexample :
  ~ (forall (uni_alnum : N -> bool) (u1 u2 : Unit),
        code u1 = code u2 ->
        pgm_name u1 = pgm_name u2 ->
        inc_name u1 = inc_name u2 ->
        type u1 = type u2 ->
        name u1 = name u2 ->
        findings (scan_unit uni_alnum u1) = findings (scan_unit uni_alnum u2)).
Proof.
  intros H.
  specialize (H no_alnum
                (example_unit 0 (Some (str "BREAK-POINT.")))
                (example_unit 5 (Some (str "BREAK-POINT.")))
                eq_refl eq_refl eq_refl eq_refl eq_refl).
  vm_compute in H. discriminate H.
Qed.

(** C9, amended. The findings of a scan depend only on the code of the
    unit, its [start_line] and the identity fields copied into each
    finding: findings already on the input are discarded and replaced,
    never merged into the output nor appended to, so the output has one
    finding per match and no other. *)
Theorem C9_findings_replaced :
  forall (uni_alnum : N -> bool),
    (forall u1 u2 : Unit,
        code u1 = code u2 ->
        start_line u1 = start_line u2 ->
        pgm_name u1 = pgm_name u2 ->
        inc_name u1 = inc_name u2 ->
        type u1 = type u2 ->
        name u1 = name u2 ->
        findings (scan_unit uni_alnum u1) = findings (scan_unit uni_alnum u2))
    /\
    (forall (u : Unit) (old : option (list Finding)),
        findings (scan_unit uni_alnum (set_findings old u))
        = findings (scan_unit uni_alnum u))
    /\
    (forall u : Unit,
        List.length (findings_of (scan_unit uni_alnum u))
        = List.length (finditer uni_alnum SET_EXT_CHECK_RE (src_of u))
          + List.length (finditer uni_alnum BREAKPOINT_RE (src_of u))).
Proof.
  intros uni_alnum.
  assert (Hdep : forall u1 u2 : Unit,
    code u1 = code u2 -> start_line u1 = start_line u2 ->
    pgm_name u1 = pgm_name u2 -> inc_name u1 = inc_name u2 ->
    type u1 = type u2 -> name u1 = name u2 ->
    findings (scan_unit uni_alnum u1) = findings (scan_unit uni_alnum u2)).
  { intros u1 u2 Hc Hs Hp Hi Ht Hn.
    rewrite !findings_scan, !collect_eq. unfold src_of, make_finding.
    now rewrite Hc, Hs, Hp, Hi, Ht, Hn. }
  split; [exact Hdep|]. split.
  - intros u old. apply Hdep; reflexivity.
  - intros u. rewrite findings_of_scan, collect_eq.
    now rewrite length_app, !length_map.
Qed.

Lemma C9_findings_replaced_witness :
  findings (scan_unit no_alnum unit_stale)
  = findings (scan_unit no_alnum (example_unit 20 (Some text_303))).
Proof.
  exact (proj1 (C9_findings_replaced no_alnum)
           unit_stale (example_unit 20 (Some text_303))
           eq_refl eq_refl eq_refl eq_refl eq_refl eq_refl).
Defined.

(** ** Texts without a line feed *)

Lemma line_in_block_free (text : pystr) (p : nat) :
  ~ In LF text -> line_in_block text p = 1%Z.
Proof.
  intros H. unfold line_in_block.
  rewrite (proj1 (count_occ_not_In N.eq_dec _ _)); [reflexivity|].
  now apply not_in_firstn.
Qed.

Lemma physical_line_whole (text : pystr) (p : nat) (line : pystr) :
  ~ In LF text -> physical_line text p line -> line = text.
Proof.
  intros Hfree (before & after & E & Hb & Ha & _ & _).
  destruct Hb as [-> | [b ->]].
  - destruct Ha as [-> | [a ->]].
    + simpl in E. now rewrite app_nil_r in E.
    + exfalso. apply Hfree. rewrite E. simpl.
      apply in_or_app. right. now left.
  - exfalso. apply Hfree. rewrite E.
    apply in_or_app. left. apply in_or_app. right. now left.
Qed.

Lemma replace_app (s1 s2 : pystr) (c : N) (by_ : pystr) :
  replace (s1 ++ s2) c by_ = replace s1 c by_ ++ replace s2 c by_.
Proof. unfold replace. apply flat_map_app. Qed.

Lemma firstn_past_insert (a b : pystr) (c : N) (k : nat) :
  firstn (List.length a + 1 + k) (a ++ [c] ++ b) = a ++ c :: firstn k b.
Proof.
  rewrite firstn_app, firstn_all2 by lia.
  replace (List.length a + 1 + k - List.length a) with (S k) by lia.
  reflexivity.
Qed.

Lemma firstn_past (a b : pystr) (k : nat) :
  firstn (List.length a + k) (a ++ b) = a ++ firstn k b.
Proof. apply firstn_app_2. Qed.

(** The line of a finding when one character is put into the code
    before the match: a line feed adds one, any other character
    nothing. *)
Lemma make_finding_insert (unit : Unit) (a b : pystr) (c : N) (k : nat)
    (e e' : Z) (issue msg sug : pystr) :
  starting_line
    (make_finding unit (a ++ [c] ++ b)
       (Z.of_nat (List.length a + 1 + k)) e issue msg sug)
  = match starting_line
            (make_finding unit (a ++ b) (Z.of_nat (List.length a + k)) e'
               issue msg sug) with
    | Some z => Some (if N.eqb c LF then z + 1 else z)%Z
    | None => None
    end.
Proof.
  rewrite !(proj1 (make_finding_lines _ _ _ _ _ _ _)).
  unfold line_in_block. rewrite firstn_past_insert, firstn_past.
  rewrite !count_occ_app.
  destruct (N.eq_dec c LF) as [->|Hne].
  - rewrite N.eqb_refl, count_occ_cons_eq by reflexivity. f_equal. lia.
  - rewrite (proj2 (N.eqb_neq c LF) Hne), count_occ_cons_neq by exact Hne.
    reflexivity.
Qed.

(** C10. Only the line feed is a line break. For every unit and every
    match, the line of the finding is [start_line + 1] plus the number
    of line feeds, and of no other character, before the start of the
    match, and its snippet is the part of the code between the nearest
    line feed before the start of the match, or the start of the code,
    and the nearest line feed after it, or the end of the code: putting
    a character into the code before the match adds one to the line
    when it is a line feed and nothing when it is any other character.
    The escape of a snippet turns the line feed into backslash and [n]
    and leaves every other character. In a unit whose code has no line
    feed, whatever else separates its lines, every finding is on line
    [start_line + 1] and its snippet is the whole code; with carriage
    returns as separators the finding of the second visual line is on
    line [start_line + 1] and its snippet holds raw carriage returns;
    with carriage return and line feed together it is on line
    [start_line + 2], one per line feed, and its snippet ends with a raw
    carriage return. *)
Theorem C10_only_line_feed :
  forall (uni_alnum : N -> bool),
    (forall (unit : Unit) (f : Finding),
        ~ In LF (src_of unit) ->
        In f (findings_of (scan_unit uni_alnum unit)) ->
        starting_line f = Some (start_line unit + 1)%Z /\
        snippet f = Some (src_of unit))
    /\
    (forall s1 s2 : pystr,
        ~ In LF s1 -> ~ In LF s2 ->
        replace (s1 ++ [LF] ++ s2) LF [BACKSLASH; 110%N]
        = s1 ++ [BACKSLASH; 110%N] ++ s2)
    /\
    (forall (pn inn ty : pystr) (nm ci : option pystr) (sl el : Z)
            (fs : option (list Finding)),
        let unit :=
          {| pgm_name := pn; inc_name := inn; type := ty; name := nm;
             class_implementation := ci; start_line := sl; end_line := el;
             code := Some text_cr; findings := fs |} in
        exists f,
          findings (scan_unit uni_alnum unit) = Some [f] /\
          starting_line f = Some (sl + 1)%Z /\
          snippet f = Some text_cr /\
          In CR text_cr)
    /\
    (forall unit : Unit,
        Forall2
          (fun m f =>
             starting_line f =
               Some (start_line unit + 1
                     + Z.of_nat
                         (count_occ N.eq_dec
                            (firstn (fst m) (src_of unit)) LF))%Z /\
             exists before line after,
               snippet f = Some line /\
               src_of unit = before ++ line ++ after /\
               (before = [] \/ exists b, before = b ++ [LF]) /\
               (after = [] \/ exists a, after = LF :: a) /\
               ~ In LF line /\
               List.length before <= fst m
               <= List.length before + List.length line)
          (finditer uni_alnum SET_EXT_CHECK_RE (src_of unit)
           ++ finditer uni_alnum BREAKPOINT_RE (src_of unit))
          (findings_of (scan_unit uni_alnum unit)))
    /\
    (forall (unit : Unit) (a b : pystr) (c : N) (k : nat) (e e' : Z)
            (issue msg sug : pystr),
        starting_line
          (make_finding unit (a ++ [c] ++ b)
             (Z.of_nat (List.length a + 1 + k)) e issue msg sug)
        = match starting_line
                  (make_finding unit (a ++ b)
                     (Z.of_nat (List.length a + k)) e' issue msg sug) with
          | Some z => Some (if N.eqb c LF then z + 1 else z)%Z
          | None => None
          end)
    /\
    (forall (s1 s2 : pystr) (c : N),
        replace (s1 ++ s2) LF [BACKSLASH; 110%N]
        = replace s1 LF [BACKSLASH; 110%N]
          ++ replace s2 LF [BACKSLASH; 110%N] /\
        replace [c] LF [BACKSLASH; 110%N]
        = if N.eqb c LF then [BACKSLASH; 110%N] else [c])
    /\
    (forall (pn inn ty : pystr) (nm ci : option pystr) (sl el : Z)
            (fs : option (list Finding)),
        let unit :=
          {| pgm_name := pn; inc_name := inn; type := ty; name := nm;
             class_implementation := ci; start_line := sl; end_line := el;
             code := Some text_crlf; findings := fs |} in
        exists f,
          findings (scan_unit uni_alnum unit) = Some [f] /\
          starting_line f = Some (sl + 2)%Z /\
          snippet f = Some (str "BREAK-POINT." ++ [CR])).
Proof.
  intros uni_alnum.
  assert (Hgen : forall (unit : Unit) (f : Finding),
    ~ In LF (src_of unit) ->
    In f (findings_of (scan_unit uni_alnum unit)) ->
    starting_line f = Some (start_line unit + 1)%Z /\
    snippet f = Some (src_of unit)).
  { intros unit f Hfree Hf. rewrite findings_of_scan, collect_eq in Hf.
    assert (Hm : exists m issue msg sug,
      fst m <= List.length (src_of unit) /\
      f = make_finding unit (src_of unit) (Z.of_nat (fst m))
            (Z.of_nat (snd m)) issue msg sug).
    { apply in_app_or in Hf.
      destruct Hf as [Hf|Hf]; apply in_map_iff in Hf;
        destruct Hf as (m & <- & Hm); exists m;
        do 3 eexists; (split; [|reflexivity]);
        apply (finditer_bound _ _ _ _ Hm). }
    destruct Hm as (m & issue & msg & sug & Hb & ->). split.
    - rewrite (proj1 (make_finding_lines _ _ _ _ _ _ _)).
      now rewrite line_in_block_free.
    - destruct (@make_finding_snippet unit (src_of unit) (fst m)
                  (Z.of_nat (snd m)) issue msg sug Hb) as (line & -> & Hl).
      now rewrite (physical_line_whole Hfree Hl). }
  assert (Hall : forall (unit : Unit) (issue msg sug : pystr) (r : regex),
    Forall2
      (fun m f =>
         starting_line f =
           Some (start_line unit + 1
                 + Z.of_nat
                     (count_occ N.eq_dec
                        (firstn (fst m) (src_of unit)) LF))%Z /\
         exists before line after,
           snippet f = Some line /\
           src_of unit = before ++ line ++ after /\
           (before = [] \/ exists b, before = b ++ [LF]) /\
           (after = [] \/ exists a, after = LF :: a) /\
           ~ In LF line /\
           List.length before <= fst m
           <= List.length before + List.length line)
      (finditer uni_alnum r (src_of unit))
      (List.map (fun m => make_finding unit (src_of unit) (Z.of_nat (fst m))
                            (Z.of_nat (snd m)) issue msg sug)
                (finditer uni_alnum r (src_of unit)))).
  { intros unit issue msg sug r.
    assert (Hb : forall m, In m (finditer uni_alnum r (src_of unit)) ->
                           fst m <= List.length (src_of unit))
      by (intros m Hm; apply (finditer_bound _ _ _ _ Hm)).
    induction (finditer uni_alnum r (src_of unit)) as [|m l IH];
      simpl; constructor.
    - split.
      + rewrite (proj1 (make_finding_lines _ _ _ _ _ _ _)).
        unfold line_in_block. f_equal. lia.
      + destruct (@make_finding_snippet unit (src_of unit) (fst m)
                    (Z.of_nat (snd m)) issue msg sug (Hb m (or_introl eq_refl)))
          as (line & Hs & (before & after & E & H1 & H2 & H3 & H4)).
        exists before, line, after. auto 10.
    - apply IH. intros m' Hm'. apply Hb. now right. }
  split; [exact Hgen|]. split; [|split; [|split; [|split; [|split]]]].
  - intros s1 s2 H1 H2. rewrite !replace_app.
    rewrite (@replace_free s1 LF _ H1), (@replace_free s2 LF _ H2).
    reflexivity.
  - intros pn inn ty nm ci sl el fs unit.
    assert (Hfree : ~ In LF (src_of unit))
      by (vm_compute; intuition discriminate).
    assert (H3 : finditer uni_alnum SET_EXT_CHECK_RE text_cr = [])
      by (vm_compute; reflexivity).
    assert (H4 : finditer uni_alnum BREAKPOINT_RE text_cr = [(8, 19)])
      by (vm_compute; reflexivity).
    assert (Hfs : findings (scan_unit uni_alnum unit)
                  = Some [make_finding unit text_cr (Z.of_nat 8)
                            (Z.of_nat 19) ISSUE_304 MSG_304 SUG_304]).
    { rewrite findings_scan, collect_eq.
      change (src_of unit) with text_cr. rewrite H3, H4. reflexivity. }
    eexists. split; [exact Hfs|].
    destruct (Hgen unit (make_finding unit text_cr (Z.of_nat 8)
                           (Z.of_nat 19) ISSUE_304 MSG_304 SUG_304) Hfree)
      as [Hl Hs].
    { unfold findings_of. rewrite Hfs. now left. }
    split; [exact Hl|]. split; [exact Hs|].
    vm_compute. auto 20.
  - intros unit. rewrite findings_of_scan, collect_eq.
    apply Forall2_app; apply Hall.
  - intros unit a b c k e e' issue msg sug. apply make_finding_insert.
  - intros s1 s2 c. split; [apply replace_app|].
    unfold replace. simpl. destruct (N.eqb c LF); reflexivity.
  - intros pn inn ty nm ci sl el fs unit.
    assert (H3 : finditer uni_alnum SET_EXT_CHECK_RE text_crlf = [])
      by (vm_compute; reflexivity).
    assert (H4 : finditer uni_alnum BREAKPOINT_RE text_crlf = [(9, 20)])
      by (vm_compute; reflexivity).
    exists (make_finding unit text_crlf (Z.of_nat 9) (Z.of_nat 20)
              ISSUE_304 MSG_304 SUG_304).
    split; [|split].
    + rewrite findings_scan, collect_eq.
      change (src_of unit) with text_crlf. rewrite H3, H4. reflexivity.
    + rewrite (proj1 (make_finding_lines _ _ _ _ _ _ _)).
      change (start_line unit) with sl.
      replace (line_in_block text_crlf 9) with 2%Z
        by (vm_compute; reflexivity).
      reflexivity.
    + vm_compute. reflexivity.
Qed.

Lemma C10_only_line_feed_witness :
  (starting_line
     (make_finding (example_unit 5 (Some text_cr)) text_cr 8 19
        ISSUE_304 MSG_304 SUG_304) = Some 6%Z /\
   snippet
     (make_finding (example_unit 5 (Some text_cr)) text_cr 8 19
        ISSUE_304 MSG_304 SUG_304) = Some text_cr) /\
  (exists f,
      findings (scan_unit no_alnum (example_unit 5 (Some text_crlf)))
      = Some [f] /\
      starting_line f = Some 7%Z /\
      snippet f = Some (str "BREAK-POINT." ++ [CR])).
Proof.
  split.
  - apply (proj1 (C10_only_line_feed no_alnum)
             (example_unit 5 (Some text_cr))).
    + vm_compute. intuition discriminate.
    + vm_compute. left. reflexivity.
  - exact (proj2 (proj2 (proj2 (proj2 (proj2 (proj2
             (C10_only_line_feed no_alnum))))))
             (str "ZPROG") (str "ZINCL") (str "METHOD") (Some (str "RUN"))
             None 5%Z 15%Z None).
Defined.

(** * Further properties of the code *)

(** ** What [finditer] reports, for a pattern that never matches empty *)

Section Reports.

Variable uni_alnum : N -> bool.
Variable r : regex.
Hypothesis advance :
  forall c e, In e (ends uni_alnum r c) -> c_pos c < c_pos e.

Lemma head_advances (c e : cursor) (more : list cursor) :
  ends uni_alnum r c = e :: more -> (c_pos e =? c_pos c) = false.
Proof.
  intros H. apply Nat.eqb_neq.
  assert (c_pos c < c_pos e) by (apply advance; rewrite H; now left). lia.
Qed.

Ltac head_advances E :=
  let H := fresh "Hadv" in
  pose proof (@head_advances _ _ _ E) as H;
  unfold cursor_at in H; simpl in H; rewrite H in *; clear H.

(** A reported match starts after the positions that were skipped. *)
Lemma finditer_from_after_skip :
  forall (rest : pystr) (skip pos : nat) (prev : option N) (m : nat * nat),
    In m (finditer_from uni_alnum r skip pos prev rest) ->
    pos + skip <= fst m.
Proof.
  induction rest as [|x rest IH]; intros skip pos prev m Hm.
  - simpl in Hm. destruct skip; [|destruct Hm].
    destruct (ends uni_alnum r (Cursor pos prev [])) as [|e more] eqn:E;
      [destruct Hm|].
    head_advances E. destruct Hm as [<-|[]]. simpl. lia.
  - assert (Hnext : forall k,
      In m (finditer_from uni_alnum r k (S pos) (Some x) rest) ->
      pos + S k <= fst m).
    { intros k H. apply IH in H. lia. }
    simpl in Hm. destruct skip; [|now apply Hnext in Hm].
    destruct (ends uni_alnum r (Cursor pos prev (x :: rest)))
      as [|e more] eqn:E.
    + apply Hnext in Hm. lia.
    + head_advances E.
      destruct Hm as [<-|Hm]; [simpl; lia|]. apply Hnext in Hm. lia.
Qed.

(** A reported match is the first end of the pattern at its start. *)
Lemma finditer_from_reported (text : pystr) :
  forall (rest a : pystr) (skip : nat) (m : nat * nat),
    text = a ++ rest ->
    In m (finditer_from uni_alnum r skip (List.length a) (last_or None a)
            rest) ->
    exists e more,
      ends uni_alnum r (cursor_at text (fst m)) = e :: more /\
      snd m = c_pos e.
Proof.
  induction rest as [|x rest IH]; intros a skip m E Hm.
  - simpl in Hm. destruct skip; [|destruct Hm].
    rewrite <- cursor_at_app, <- E in Hm.
    destruct (ends uni_alnum r (cursor_at text (List.length a)))
      as [|e more] eqn:He; [destruct Hm|].
    head_advances He. destruct Hm as [<-|[]].
    simpl. eauto.
  - assert (Hnext : forall k,
      In m (finditer_from uni_alnum r k (S (List.length a)) (Some x) rest) ->
      exists e more,
        ends uni_alnum r (cursor_at text (fst m)) = e :: more /\
        snd m = c_pos e).
    { intros k H. rewrite finditer_from_snoc in H.
      apply (IH (a ++ [x]) k m); [|exact H].
      rewrite <- app_assoc. exact E. }
    simpl in Hm. destruct skip; [|now apply Hnext in Hm].
    rewrite <- cursor_at_app, <- E in Hm.
    destruct (ends uni_alnum r (cursor_at text (List.length a)))
      as [|e more] eqn:He; [now apply Hnext in Hm|].
    head_advances He.
    destruct Hm as [<-|Hm]; [simpl; eauto | now apply Hnext in Hm].
Qed.

(** An offset at which the pattern matches is the start of a reported
    match, or lies inside an earlier reported match. *)
Lemma finditer_from_covers (text : pystr) (p : nat) :
  ends uni_alnum r (cursor_at text p) <> [] ->
  forall (rest a : pystr) (skip : nat),
    text = a ++ rest ->
    List.length a + skip <= p <= List.length text ->
    let l := finditer_from uni_alnum r skip (List.length a) (last_or None a)
               rest in
    (exists e, In (p, e) l) \/
    (exists s e, In (s, e) l /\ s < p < e).
Proof.
  intros Hhit. induction rest as [|x rest IH]; intros a skip E Hp.
  - assert (Hlen : List.length text = List.length a)
      by (rewrite E, length_app; simpl; lia).
    assert (p = List.length a /\ skip = 0) as [-> ->] by lia.
    cbv zeta. simpl. rewrite <- cursor_at_app, <- E.
    destruct (ends uni_alnum r (cursor_at text (List.length a)))
      as [|e more] eqn:He; [congruence|].
    head_advances He.
    left. exists (c_pos e). now left.
  - assert (Hnext : forall k,
      S (List.length a) + k <= p ->
      let l := finditer_from uni_alnum r k (S (List.length a)) (Some x)
                 rest in
      (exists e, In (p, e) l) \/ (exists s e, In (s, e) l /\ s < p < e)).
    { intros k Hk. cbv zeta. rewrite finditer_from_snoc.
      apply (IH (a ++ [x]) k).
      - rewrite <- app_assoc. exact E.
      - rewrite length_app. simpl. lia. }
    cbv zeta. simpl. destruct skip; [|apply Hnext; lia].
    rewrite <- cursor_at_app, <- E.
    destruct (ends uni_alnum r (cursor_at text (List.length a)))
      as [|e more] eqn:He.
    + apply Hnext. destruct (Nat.eq_dec p (List.length a)); [|lia].
      subst p. congruence.
    + head_advances He.
      assert (Hlt : List.length a < c_pos e).
      { change (List.length a) with (c_pos (cursor_at text (List.length a))).
        apply advance. rewrite He. now left. }
      destruct (Nat.eq_dec p (List.length a)) as [->|Hne].
      * left. exists (c_pos e). now left.
      * destruct (Nat.lt_ge_cases p (c_pos e)) as [Hin|Hout].
        -- right. exists (List.length a), (c_pos e). split; [now left | lia].
        -- destruct (Hnext (c_pos e - List.length a - 1)) as [[e' H]|H];
             [lia | |].
           ++ left. exists e'. now right.
           ++ destruct H as (s & e' & H & Hs). right. exists s, e'.
              split; [now right | exact Hs].
Qed.

(** Reported matches do not overlap. *)
Lemma finditer_from_disjoint :
  forall (rest : pystr) (skip pos : nat) (prev : option N),
    StronglySorted (fun a b : nat * nat => snd a <= fst b)
      (finditer_from uni_alnum r skip pos prev rest).
Proof.
  induction rest as [|x rest IH]; intros skip pos prev.
  - simpl. destruct skip; [|constructor].
    destruct (ends uni_alnum r (Cursor pos prev [])) as [|e more] eqn:E;
      [constructor|].
    head_advances E. repeat constructor.
  - simpl. destruct skip; [|apply IH].
    destruct (ends uni_alnum r (Cursor pos prev (x :: rest)))
      as [|e more] eqn:E; [apply IH|].
    head_advances E.
    assert (Hlt : pos < c_pos e).
    { change pos with (c_pos (Cursor pos prev (x :: rest))).
      apply advance. rewrite E. now left. }
    constructor; [apply IH|].
    apply Forall_forall. intros m Hm.
    apply finditer_from_after_skip in Hm. simpl. lia.
Qed.

End Reports.

(** ** Occurrences inside a match *)

Lemma last_or_nonempty (o : option N) (l : pystr) :
  l <> [] -> last_or o l = last_or None l.
Proof.
  destruct l as [|x l]; [congruence|]. intros _. reflexivity.
Qed.

Lemma sorted_app (P : N -> N -> Prop) (l1 l2 : pystr) :
  Sorted P l1 -> Sorted P l2 ->
  (forall a b, last_or None l1 = Some a -> hd_error l2 = Some b -> P a b) ->
  Sorted P (l1 ++ l2).
Proof.
  induction l1 as [|x l1 IH]; intros H1 H2 Hj; [exact H2|].
  inversion H1 as [|? ? Hs Hh]; subst. simpl. constructor.
  - apply IH; [exact Hs | exact H2|].
    intros a b Ha Hb. apply Hj; [|exact Hb].
    destruct l1 as [|y l1]; [discriminate|]. exact Ha.
  - destruct l1 as [|y l1].
    + simpl. destruct l2 as [|b l2]; constructor. now apply Hj.
    + inversion Hh; subst. now constructor.
Qed.

Lemma sorted_cut (P : N -> N -> Prop) (u v : pystr) (a b : N) :
  Sorted P (u ++ v) ->
  last_or None u = Some a -> hd_error v = Some b -> P a b.
Proof.
  induction u as [|x u IH]; intros Hs Ha Hb; [discriminate|].
  simpl in Hs. inversion Hs as [|? ? Hs' Hh]; subst.
  destruct u as [|y u].
  - simpl in Ha. injection Ha as ->.
    destruct v as [|b' v]; [discriminate|]. simpl in Hb. injection Hb as ->.
    simpl in Hh. now inversion Hh.
  - apply IH; [exact Hs' | exact Ha | exact Hb].
Qed.

Lemma sorted_left (P : N -> N -> Prop) (Q : N -> Prop) (l : pystr) :
  (forall a b, Q a -> P a b) -> Forall Q l -> Sorted P l.
Proof.
  intros HP. induction 1 as [|x l Hx Hl IH]; constructor; [exact IH|].
  destruct l; constructor. now apply HP.
Qed.

Lemma sorted_right (P : N -> N -> Prop) (Q : N -> Prop) (l : pystr) :
  (forall a b, Q b -> P a b) -> Forall Q l -> Sorted P l.
Proof.
  intros HP. induction 1 as [|x l Hx Hl IH]; constructor; [exact IH|].
  destruct l as [|y l]; constructor. apply HP. now inversion Hl.
Qed.

(** A text cut at an offset strictly inside its middle part. *)
Lemma cut_inside (pre mid post pre' rest' : pystr) :
  pre ++ mid ++ post = pre' ++ rest' ->
  List.length pre < List.length pre' < List.length pre + List.length mid ->
  exists u v, mid = u ++ v /\ u <> [] /\ v <> [] /\
              pre' = pre ++ u /\ rest' = v ++ post.
Proof.
  intros E Hlen.
  apply app_eq_app in E. destruct E as (l & [[E1 E2]|[E1 E2]]).
  - subst pre. rewrite length_app in Hlen. lia.
  - subst pre'. rewrite length_app in Hlen.
    symmetry in E2. apply app_eq_app in E2.
    destruct E2 as (l' & [[E3 E4]|[E3 E4]]).
    + subst l. rewrite length_app in Hlen. lia.
    + subst mid. rewrite length_app in Hlen.
      exists l, l'. repeat split; auto.
      * intros ->. simpl in Hlen. lia.
      * intros ->. simpl in Hlen. lia.
Qed.

Section Inner.

Variable uni_alnum : N -> bool.

Lemma ci_eq_all_word (kw t : pystr) :
  Forall (fun a => unicode_iscased a = true) kw -> ci_eq kw t ->
  Forall (fun x => is_word uni_alnum x = true) t.
Proof.
  intros Hkw H. revert Hkw. induction H as [|a x kw t Hx _ IH]; intros Hkw;
    constructor; inversion Hkw; subst.
  - now apply (lit_ignorecase_word uni_alnum a).
  - now apply IH.
Qed.

(** A character that matches one letter of a pattern does not match a
    different letter. *)
Lemma lit_ignorecase_apart (a a' x : N) :
  unicode_iscased a = true ->
  (forall y, In y [unicode_tolower a; (unicode_tolower a - 32)%N;
                   I_DOT; DOTLESS_I; LONG_S; KELVIN] ->
             lit_ignorecase a y = true -> lit_ignorecase a' y = false) ->
  lit_ignorecase a x = true -> lit_ignorecase a' x = false.
Proof.
  intros Ha Hall Hx. apply Hall; [|exact Hx].
  now apply lit_ignorecase_cases.
Qed.

Lemma not_word_not_letter (a x : N) :
  unicode_iscased a = true -> is_word uni_alnum x = false ->
  lit_ignorecase a x = false.
Proof.
  intros Ha Hw. destruct (lit_ignorecase a x) eqn:E; [|reflexivity].
  rewrite (lit_ignorecase_word uni_alnum a x Ha E) in Hw. discriminate.
Qed.

End Inner.

Lemma last_or_in (l : pystr) (a : N) :
  last_or None l = Some a -> In a l.
Proof.
  induction l as [|x l IH] using rev_ind; [discriminate|].
  rewrite last_or_snoc. intros [= ->]. apply in_or_app. right. now left.
Qed.

Lemma last_or_some (l : pystr) :
  l <> [] -> exists a, last_or None l = Some a.
Proof.
  induction l as [|x l IH] using rev_ind; [congruence|].
  intros _. exists x. apply last_or_snoc.
Qed.

Lemma hd_error_app_nonempty (v post : pystr) :
  v <> [] -> hd_error (v ++ post) = hd_error v.
Proof. destruct v; [congruence | reflexivity]. Qed.

Section NoInnerOccurrence.

Variable uni_alnum : N -> bool.

Lemma shut_letters (k : N) (kw t : pystr) :
  Forall (fun a => unicode_iscased a = true) kw -> ci_eq kw t ->
  Sorted (shut uni_alnum k) t.
Proof.
  intros Hkw H.
  apply sorted_left with (Q := fun x => is_word uni_alnum x = true).
  - intros a b Ha. now left.
  - now apply (ci_eq_all_word uni_alnum Hkw).
Qed.

Lemma shut_spaces (k : N) (w : pystr) :
  unicode_iscased k = true -> spaces w -> Sorted (shut uni_alnum k) w.
Proof.
  intros Hk [_ Hw].
  apply sorted_right with (Q := fun x => is_space x = true); [|exact Hw].
  intros a b Hb. right. apply (not_word_not_letter uni_alnum); [exact Hk|].
  now apply space_not_word.
Qed.

Lemma shut_after_letters (k : N) (kw t : pystr) (a b : N) :
  Forall (fun a => unicode_iscased a = true) kw -> ci_eq kw t ->
  last_or None t = Some a -> shut uni_alnum k a b.
Proof.
  intros Hkw H Ha. left.
  pose proof (ci_eq_all_word uni_alnum Hkw H) as Hall.
  rewrite Forall_forall in Hall. apply Hall. now apply last_or_in.
Qed.

Lemma shut_before_letter (k k' : N) (kw t rest : pystr) (a b : N) :
  unicode_iscased k' = true ->
  (forall y, In y [unicode_tolower k'; (unicode_tolower k' - 32)%N;
                   I_DOT; DOTLESS_I; LONG_S; KELVIN] ->
             lit_ignorecase k' y = true -> lit_ignorecase k y = false) ->
  ci_eq (k' :: kw) t ->
  hd_error (t ++ rest) = Some b -> shut uni_alnum k a b.
Proof.
  intros Hk' Hapart H Hb. right.
  inversion H as [|? x ? t' Hx _]; subst. simpl in Hb. injection Hb as <-.
  exact (lit_ignorecase_apart k' k x Hk' Hapart Hx).
Qed.

Lemma shut_before_space (k : N) (w rest : pystr) (a b : N) :
  unicode_iscased k = true -> spaces w ->
  hd_error (w ++ rest) = Some b -> shut uni_alnum k a b.
Proof.
  intros Hk [Hne Hw] Hb. right.
  destruct w as [|x w]; [congruence|]. simpl in Hb. injection Hb as <-.
  apply (not_word_not_letter uni_alnum); [exact Hk|].
  apply space_not_word. now inversion Hw.
Qed.

Ltac apart :=
  let y := fresh "y" in
  let Hy := fresh "Hy" in
  intros y Hy; simpl in Hy;
  repeat (destruct Hy as [<-|Hy];
          [vm_compute; intros; first [reflexivity | discriminate]|]);
  destruct Hy.

Ltac cased := repeat constructor.

Lemma phrase303_shut (ph : pystr) :
  phrase303 ph -> Sorted (shut uni_alnum 83) ph.
Proof.
  intros (t1 & w1 & t2 & w2 & t3 & -> & H1 & Hw1 & H2 & Hw2 & H3).
  assert (C1 : Forall (fun a => unicode_iscased a = true) (str "SET"))
    by cased.
  assert (C2 : Forall (fun a => unicode_iscased a = true) (str "EXTENDED"))
    by cased.
  assert (C3 : Forall (fun a => unicode_iscased a = true) (str "CHECK"))
    by cased.
  apply sorted_app; [exact (@shut_letters 83 _ _ C1 H1) | |
                     intros a b Ha _; exact (@shut_after_letters 83 _ _ a b C1 H1 Ha)].
  apply sorted_app; [now apply (@shut_spaces 83) | |].
  2: { intros a b _ Hb.
       apply (@shut_before_letter 83 69 (str "XTENDED") t2 (w2 ++ t3) a b);
         [reflexivity | apart | exact H2 | exact Hb]. }
  apply sorted_app; [exact (@shut_letters 83 _ _ C2 H2) | |
                     intros a b Ha _; exact (@shut_after_letters 83 _ _ a b C2 H2 Ha)].
  apply sorted_app; [now apply (@shut_spaces 83) | exact (@shut_letters 83 _ _ C3 H3) |].
  intros a b _ Hb.
  apply (@shut_before_letter 83 67 (str "HECK") t3 [] a b);
    [reflexivity | apart | exact H3 | now rewrite app_nil_r].
Qed.

Lemma keyword304_shut (kw : pystr) :
  ci_eq (str "BREAK-POINT") kw -> Sorted (shut uni_alnum 66) kw.
Proof.
  intros H.
  change (str "BREAK-POINT") with (str "BREAK" ++ [45%N] ++ str "POINT") in H.
  apply Forall2_app_inv_l in H. destruct H as (k1 & r1 & H1 & H & ->).
  apply Forall2_app_inv_l in H. destruct H as (h & k2 & Hh & H2 & ->).
  assert (C1 : Forall (fun a => unicode_iscased a = true) (str "BREAK"))
    by cased.
  assert (C2 : Forall (fun a => unicode_iscased a = true) (str "POINT"))
    by cased.
  apply sorted_app; [exact (@shut_letters 66 _ _ C1 H1) | |
                     intros a b Ha _; exact (@shut_after_letters 66 _ _ a b C1 H1 Ha)].
  apply sorted_app; [|exact (@shut_letters 66 _ _ C2 H2)|].
  - inversion Hh as [|? x ? ? _ Hnil]; subst. inversion Hnil; subst.
    repeat constructor.
  - intros a b _ Hb.
    apply (@shut_before_letter 66 80 (str "OINT") k2 [] a b);
      [reflexivity | apart | exact H2 | now rewrite app_nil_r].
Qed.

Lemma phrase303_first (ph : pystr) :
  phrase303 ph ->
  exists x rest, ph = x :: rest /\ lit_ignorecase 83 x = true.
Proof.
  intros (t1 & w1 & t2 & w2 & t3 & -> & H1 & _).
  inversion H1 as [|? x ? t' Hx _]; subst. simpl. eauto.
Qed.

Lemma keyword304_first (kw : pystr) :
  ci_eq (str "BREAK-POINT") kw ->
  exists x rest, kw = x :: rest /\ lit_ignorecase 66 x = true.
Proof.
  intros H. inversion H as [|? x ? t' Hx _]; subst. eauto.
Qed.

(** No occurrence of a keyword starting with [k] begins at a cut [u|v]
    of a region in which every pair of neighbours is shut. *)
Lemma shut_cut (k : N) (pre u v post : pystr) (x : N) (rest' : pystr) :
  Sorted (shut uni_alnum k) (u ++ v) -> u <> [] -> v <> [] ->
  free_before uni_alnum (pre ++ u) ->
  v ++ post = x :: rest' -> lit_ignorecase k x = true -> False.
Proof.
  intros Hs Hu Hv Hfree E Hx.
  destruct (last_or_some Hu) as [a Ha].
  assert (Hb : hd_error v = Some x).
  { rewrite <- (hd_error_app_nonempty post Hv), E. reflexivity. }
  destruct (sorted_cut _ _ Hs Ha Hb) as [Hw|Hl]; [|congruence].
  unfold free_before in Hfree.
  rewrite last_or_app, (last_or_nonempty _ Hu), Ha in Hfree. simpl in Hfree.
  congruence.
Qed.

End NoInnerOccurrence.

(** ** The reported matches of the two patterns *)

Section RuleReports.

Variable uni_alnum : N -> bool.

Lemma phrase303_length (ph : pystr) : phrase303 ph -> 18 <= List.length ph.
Proof.
  intros (t1 & w1 & t2 & w2 & t3 & -> & H1 & [N1 _] & H2 & [N2 _] & H3).
  rewrite !length_app, (ci_eq_length H1), (ci_eq_length H2),
    (ci_eq_length H3).
  destruct w1; [congruence|]. destruct w2; [congruence|]. simpl. lia.
Qed.

Lemma reported303 (text : pystr) (s e : nat) :
  In (s, e) (finditer uni_alnum SET_EXT_CHECK_RE text) ->
  exists pre ph post,
    text = pre ++ ph ++ post /\ List.length pre = s /\
    s + List.length ph = e /\ phrase303 ph /\
    free_before uni_alnum pre /\ free_after uni_alnum post.
Proof.
  intros H.
  destruct (@finditer_from_reported uni_alnum SET_EXT_CHECK_RE
              (@advance303 uni_alnum) text text [] 0 (s, e) eq_refl H)
    as (e0 & more & He0 & Hend).
  cbn [fst snd] in He0, Hend.
  assert (Hin : In e0 (ends uni_alnum SET_EXT_CHECK_RE (cursor_at text s)))
    by (rewrite He0; now left).
  apply in_ends_303 in Hin. destruct Hin as (ph & Hph & Hs & Hb & Ha).
  assert (Hne : ph <> []).
  { pose proof (phrase303_length Hph). intros ->. simpl in *. lia. }
  destruct (cursor_at_span Hne Hs) as [E L].
  exists (firstn s text), ph, (c_rest e0).
  split; [exact E|]. split; [exact L|].
  split; [rewrite Hend, (span_advances Hs); reflexivity|].
  auto.
Qed.

Lemma reported304 (text : pystr) (s e : nat) :
  In (s, e) (finditer uni_alnum BREAKPOINT_RE text) ->
  exists pre kw post,
    text = pre ++ kw ++ post /\ List.length pre = s /\
    ci_eq (str "BREAK-POINT") kw /\
    free_before uni_alnum pre /\ free_after uni_alnum post /\
    (e = s + 11 \/
     exists ws tok rest,
       post = ws ++ tok ++ rest /\ spaces ws /\ words uni_alnum tok /\
       e = s + 11 + List.length ws + List.length tok).
Proof.
  intros H.
  destruct (@finditer_from_reported uni_alnum BREAKPOINT_RE
              (@advance304 uni_alnum) text text [] 0 (s, e) eq_refl H)
    as (e0 & more & He0 & Hend).
  cbn [fst snd] in He0, Hend.
  assert (Hin : In e0 (ends uni_alnum BREAKPOINT_RE (cursor_at text s)))
    by (rewrite He0; now left).
  apply in_ends_304 in Hin.
  destruct Hin as (kw & m & Hkw & Hs & Hb & Ha & Hcase).
  pose proof (keyword304_starts uni_alnum Hkw) as [_ Lkw].
  assert (Hne : kw <> []) by (intros ->; discriminate).
  destruct (cursor_at_span Hne Hs) as [E L].
  exists (firstn s text), kw, (c_rest m).
  split; [exact E|]. split; [exact L|]. split; [exact Hkw|].
  split; [exact Hb|]. split; [exact Ha|].
  pose proof (span_advances Hs) as Pm. simpl in Pm.
  destruct Hcase as [->|(ws & tok & Hws & Htok & Hs')].
  - left. lia.
  - right. exists ws, tok, (c_rest e0).
    destruct Hs' as (R & P & _). rewrite <- app_assoc in R.
    split; [exact R|]. split; [exact Hws|]. split; [exact Htok|].
    rewrite length_app in P. lia.
Qed.

(** Every occurrence of the phrase is reported: an occurrence cannot
    begin inside another one. *)
Lemma covers303 (text : pystr) (p : nat) :
  occurs303 uni_alnum text p ->
  exists e, In (p, e) (finditer uni_alnum SET_EXT_CHECK_RE text).
Proof.
  intros Hocc.
  destruct (@finditer_from_covers uni_alnum SET_EXT_CHECK_RE
              (@advance303 uni_alnum) text p
              (proj2 (hit303_iff uni_alnum text p) Hocc)
              text [] 0 eq_refl) as [H|(s & e & H & Hin)].
  { simpl. split; [lia|]. exact (occurs303_bound Hocc). }
  { exact H. }
  exfalso.
  destruct (reported303 _ _ _ H) as (pre & ph & post & E & L & Le & Hph & _).
  destruct Hocc as (pre' & ph' & post' & E' & L' & Hph' & Hfree & _).
  rewrite E' in E.
  destruct (@cut_inside pre ph post pre' (ph' ++ post')) as
    (u & v & -> & Hu & Hv & -> & Ev); [now symmetry | lia |].
  destruct (phrase303_first Hph') as (x & rest' & -> & Hx).
  apply (@shut_cut uni_alnum 83 pre u v post x (rest' ++ post'));
    auto.
  now apply phrase303_shut.
Qed.

(** An occurrence of the keyword is reported, unless it is the trailing
    token of an earlier reported match: it then follows that match's
    keyword and white space. *)
Lemma covers304 (text : pystr) (p : nat) :
  occurs304 uni_alnum text p ->
  (exists e, In (p, e) (finditer uni_alnum BREAKPOINT_RE text)) \/
  (exists s e pre kw ws rest,
      In (s, e) (finditer uni_alnum BREAKPOINT_RE text) /\
      text = pre ++ kw ++ ws ++ rest /\ List.length pre = s /\
      ci_eq (str "BREAK-POINT") kw /\ spaces ws /\
      p = s + 11 + List.length ws /\ p < e).
Proof.
  intros Hocc.
  destruct (@finditer_from_covers uni_alnum BREAKPOINT_RE
              (@advance304 uni_alnum) text p
              (proj2 (hit304_iff uni_alnum text p) Hocc)
              text [] 0 eq_refl) as [H|(s & e & H & Hin)].
  { simpl. split; [lia|]. exact (occurs304_bound Hocc). }
  { left. exact H. }
  right.
  destruct (reported304 _ _ _ H)
    as (pre & kw & post & E & L & Hkw & _ & Hafter & Hend).
  pose proof (keyword304_starts uni_alnum Hkw) as [_ Lkw].
  destruct Hocc as (pre' & kw' & post' & E' & L' & Hkw' & Hfree & _).
  destruct (keyword304_first Hkw') as (x & rest' & -> & Hx).
  assert (Hxw : is_word uni_alnum x = true)
    by (apply (lit_ignorecase_word uni_alnum 66); [reflexivity | exact Hx]).
  rewrite E' in E.
  destruct Hend as [->|(ws & tok & rest & -> & Hws & Htok & ->)].
  - (* the match is the keyword alone *)
    exfalso.
    destruct (@cut_inside pre kw post pre' ((x :: rest') ++ post')) as
      (u & v & -> & Hu & Hv & -> & Ev); [now symmetry | lia |].
    apply (@shut_cut uni_alnum 66 pre u v post x (rest' ++ post')); auto.
    now apply keyword304_shut.
  - (* the match goes on with white space and a token *)
    destruct (Nat.lt_trichotomy p (s + 11 + List.length ws))
      as [Hlt|[Heq|Hgt]].
    + (* inside the keyword or the white space *)
      exfalso.
      replace (pre ++ kw ++ (ws ++ tok ++ rest))
        with (pre ++ (kw ++ ws) ++ (tok ++ rest)) in E
        by now rewrite <- !app_assoc.
      destruct (@cut_inside pre (kw ++ ws) (tok ++ rest) pre'
                  ((x :: rest') ++ post')) as
        (u & v & Euv & Hu & Hv & -> & Ev);
        [now symmetry | rewrite length_app; lia |].
      apply (@shut_cut uni_alnum 66 pre u v (tok ++ rest) x
               (rest' ++ post')); auto.
      rewrite <- Euv. apply sorted_app.
      * now apply keyword304_shut.
      * now apply (@shut_spaces uni_alnum 66).
      * intros a b Ha _. left.
        pose proof (keyword304_ends uni_alnum None Hkw) as Hw.
        rewrite Ha in Hw. exact Hw.
    + (* at the start of the token *)
      exists s, (s + 11 + List.length ws + List.length tok), pre, kw, ws,
        (tok ++ rest).
      split; [exact H|]. split; [now rewrite E', E|].
      split; [exact L|]. split; [exact Hkw|]. split; [exact Hws|].
      split; lia.
    + (* inside the token *)
      exfalso.
      replace (pre ++ kw ++ (ws ++ tok ++ rest))
        with ((pre ++ kw ++ ws) ++ tok ++ rest) in E
        by now rewrite <- !app_assoc.
      destruct (@cut_inside (pre ++ kw ++ ws) tok rest pre'
                  ((x :: rest') ++ post')) as
        (u & v & -> & Hu & Hv & -> & Ev);
        [now symmetry | rewrite !length_app; lia |].
      apply (@shut_cut uni_alnum 66 (pre ++ kw ++ ws) u v rest x
               (rest' ++ post')); auto.
      destruct Htok as [_ Htok].
      apply sorted_left with (Q := fun y => is_word uni_alnum y = true);
        [intros a b Ha; now left | exact Htok].
Qed.

End RuleReports.

Section Starts.

Variable uni_alnum : N -> bool.
Variable r : regex.
Hypothesis advance :
  forall c e, In e (ends uni_alnum r c) -> c_pos c < c_pos e.

Lemma finditer_not_empty (text : pystr) (m : nat * nat) :
  In m (finditer uni_alnum r text) -> fst m < snd m.
Proof.
  intros H.
  destruct (@finditer_from_reported uni_alnum r advance text text [] 0 m
              eq_refl H) as (e & more & He & ->).
  change (fst m) with (c_pos (cursor_at text (fst m))).
  apply advance. rewrite He. now left.
Qed.

Lemma finditer_disjoint (text : pystr) :
  StronglySorted (fun a b : nat * nat => snd a <= fst b)
    (finditer uni_alnum r text).
Proof. apply (@finditer_from_disjoint uni_alnum r advance). Qed.

(** The starts of the reported matches increase strictly. *)
Lemma finditer_starts_increase (text : pystr) :
  StronglySorted lt (List.map fst (finditer uni_alnum r text)).
Proof.
  pose proof (finditer_disjoint text) as Hd.
  pose proof (finditer_not_empty text) as Hne.
  induction Hd as [|m l Hl IH Hm]; simpl; constructor.
  - apply IH. intros m' Hm'. apply Hne. now right.
  - apply Forall_forall. intros s Hs. apply in_map_iff in Hs.
    destruct Hs as (m' & <- & Hm').
    rewrite Forall_forall in Hm. specialize (Hm m' Hm').
    assert (fst m < snd m) by (apply Hne; now left). lia.
Qed.

End Starts.

Lemma Forall2_map_fst (A B C : Type) (P : A -> C -> Prop) (f : B -> A)
    (g : B -> C) (l : list B) :
  (forall x, In x l -> P (f x) (g x)) ->
  Forall2 P (List.map f l) (List.map g l).
Proof.
  induction l as [|x l IH]; intros H; simpl; constructor.
  - apply H. now left.
  - apply IH. intros y Hy. apply H. now right.
Qed.

(** X1. Rule 303 gives one finding per word-bounded occurrence of the
    phrase, in text order: the starts of the occurrences, in increasing
    order, correspond one to one to the findings of the rule, each on
    the line of its occurrence with the physical line around it as its
    snippet. *)
Theorem rule303_one_finding_per_occurrence :
  forall (uni_alnum : N -> bool) (unit : Unit),
  exists starts : list nat,
    StronglySorted lt starts /\
    (forall p, In p starts <-> occurs303 uni_alnum (src_of unit) p) /\
    Forall2
      (fun p f =>
         issues_type f = Some ISSUE_303 /\
         starting_line f =
           Some (start_line unit + line_in_block (src_of unit) p)%Z /\
         exists line,
           snippet f = Some line /\ physical_line (src_of unit) p line)
      starts
      (of_rule ISSUE_303 (findings_of (scan_unit uni_alnum unit))).
Proof.
  intros uni_alnum unit.
  exists (List.map fst (finditer uni_alnum SET_EXT_CHECK_RE (src_of unit))).
  split.
  { apply (@finditer_starts_increase uni_alnum _ (@advance303 uni_alnum)). }
  split.
  - intros p. rewrite in_map_iff. split.
    + intros ([s e] & <- & Hm).
      destruct (@reported303 uni_alnum _ _ _ Hm)
        as (pre & ph & post & E & L & _ & Hph & Hb & Ha).
      exists pre, ph, post. auto.
    + intros Hocc. destruct (@covers303 uni_alnum _ _ Hocc) as [e He].
      exists (p, e). auto.
  - rewrite of_rule303_scan. apply Forall2_map_fst. intros m Hm.
    split; [reflexivity|]. split; [apply make_finding_lines|].
    apply make_finding_snippet.
    apply (@finditer_bound uni_alnum _ _ _ Hm).
Qed.


Section ScanMore.

Variable uni_alnum : N -> bool.

Lemma in_collect (unit : Unit) (f : Finding) :
  In f (collect uni_alnum unit) ->
  exists m issue msg sug,
    f = make_finding unit (src_of unit) (Z.of_nat (fst m)) (Z.of_nat (snd m))
          issue msg sug /\
    fst m <= List.length (src_of unit) /\
    ((issue = ISSUE_303 /\ msg = MSG_303 /\ sug = SUG_303 /\
      In m (finditer uni_alnum SET_EXT_CHECK_RE (src_of unit))) \/
     (issue = ISSUE_304 /\ msg = MSG_304 /\ sug = SUG_304 /\
      In m (finditer uni_alnum BREAKPOINT_RE (src_of unit)))).
Proof.
  rewrite collect_eq. intros Hf. apply in_app_or in Hf.
  destruct Hf as [Hf|Hf]; apply in_map_iff in Hf;
    destruct Hf as (m & <- & Hm); exists m; do 3 eexists;
    (split; [reflexivity|]);
    (split; [apply (@finditer_bound uni_alnum _ _ _ Hm)|]); auto 10.
Qed.

Lemma collect_set_findings (fs : option (list Finding)) (u : Unit) :
  collect uni_alnum (set_findings fs u) = collect uni_alnum u.
Proof. reflexivity. Qed.

Lemma scan_unit_again (u : Unit) :
  scan_unit uni_alnum (scan_unit uni_alnum u) = scan_unit uni_alnum u.
Proof.
  unfold scan_unit at 1. cbv zeta.
  unfold scan_unit at 1 2. cbv zeta. rewrite collect_set_findings.
  reflexivity.
Qed.

Lemma scan_array_eq (units : list Unit) :
  scan_array uni_alnum units
  = filter has_findings (List.map (scan_unit uni_alnum) units).
Proof. unfold scan_array. now rewrite scan_array_from. Qed.

Lemma collect_nil_iff (u : Unit) :
  collect uni_alnum u = [] <->
  (forall p, ~ occurs303 uni_alnum (src_of u) p) /\
  (forall p, ~ occurs304 uni_alnum (src_of u) p).
Proof.
  rewrite collect_eq. split.
  - intros H. apply app_eq_nil in H. destruct H as [H3 H4].
    apply map_eq_nil in H3. apply map_eq_nil in H4. split; intros p Hocc.
    + destruct (@covers303 uni_alnum _ _ Hocc) as [e He].
      rewrite H3 in He. destruct He.
    + destruct (@covers304 uni_alnum _ _ Hocc)
        as [[e He]|(s & e & _ & _ & _ & _ & He & _)];
        rewrite H4 in He; destruct He.
  - intros [H3 H4].
    now rewrite (finditer_none303 H3), (finditer_none304 H4).
Qed.

Lemma has_findings_iff (u : Unit) :
  has_findings (scan_unit uni_alnum u) = true <->
  exists p, occurs303 uni_alnum (src_of u) p \/
            occurs304 uni_alnum (src_of u) p.
Proof.
  unfold has_findings. rewrite findings_scan. split.
  - intros H.
    destruct (matches_nowhere uni_alnum SET_EXT_CHECK_RE (src_of u)) eqn:E3.
    + destruct (matches_nowhere uni_alnum BREAKPOINT_RE (src_of u)) eqn:E4.
      * exfalso.
        assert (Hnil : collect uni_alnum u = []).
        { apply collect_nil_iff. split; intros p Hocc.
          - pose proof (occurs303_bound Hocc) as Hb.
            apply matches_at_303 in Hocc.
            rewrite (@matches_nowhere_spec uni_alnum _ _ _ E3 Hb) in Hocc.
            discriminate.
          - pose proof (occurs304_bound Hocc) as Hb.
            apply matches_at_304 in Hocc.
            rewrite (@matches_nowhere_spec uni_alnum _ _ _ E4 Hb) in Hocc.
            discriminate. }
        rewrite Hnil in H. discriminate.
      * unfold matches_nowhere in E4.
        apply not_true_iff_false in E4. rewrite forallb_forall in E4.
        destruct (existsb
                    (fun q => matches_at uni_alnum BREAKPOINT_RE (src_of u) q)
                    (seq 0 (S (List.length (src_of u))))) eqn:Ex.
        -- apply existsb_exists in Ex. destruct Ex as (q & _ & Hq).
           exists q. right. now apply matches_at_304.
        -- exfalso. apply E4. intros q Hq.
           destruct (matches_at uni_alnum BREAKPOINT_RE (src_of u) q) eqn:Em;
             [|reflexivity].
           assert (existsb
                     (fun q => matches_at uni_alnum BREAKPOINT_RE (src_of u) q)
                     (seq 0 (S (List.length (src_of u)))) = true)
             by (apply existsb_exists; eauto).
           congruence.
    + unfold matches_nowhere in E3.
      apply not_true_iff_false in E3. rewrite forallb_forall in E3.
      destruct (existsb
                  (fun q => matches_at uni_alnum SET_EXT_CHECK_RE (src_of u) q)
                  (seq 0 (S (List.length (src_of u))))) eqn:Ex.
      * apply existsb_exists in Ex. destruct Ex as (q & _ & Hq).
        exists q. left. now apply matches_at_303.
      * exfalso. apply E3. intros q Hq.
        destruct (matches_at uni_alnum SET_EXT_CHECK_RE (src_of u) q) eqn:Em;
          [|reflexivity].
        assert (existsb
                  (fun q => matches_at uni_alnum SET_EXT_CHECK_RE (src_of u) q)
                  (seq 0 (S (List.length (src_of u)))) = true)
          by (apply existsb_exists; eauto).
        congruence.
  - intros (p & Hocc).
    destruct (collect uni_alnum u) as [|f l] eqn:E; [|reflexivity].
    apply collect_nil_iff in E. destruct E as [H3 H4].
    destruct Hocc as [H|H]; [now apply H3 in H | now apply H4 in H].
Qed.

End ScanMore.

(** X3. Every finding of a scan carries the names, the type and the
    block name of the scanned unit, the severity [error], equal starting
    and ending lines, and the issue type, message and suggestion of one
    of the two rules. *)
Theorem findings_carry_unit_and_rule :
  forall (uni_alnum : N -> bool) (unit : Unit) (f : Finding),
    In f (findings_of (scan_unit uni_alnum unit)) ->
    prog_name f = Some (pgm_name unit) /\
    incl_name f = Some (inc_name unit) /\
    types f = Some (type unit) /\
    blockname f = name unit /\
    severity f = Some (str "error") /\
    ending_line f = starting_line f /\
    ((issues_type f = Some ISSUE_303 /\ message f = Some MSG_303 /\
      suggestion f = Some SUG_303) \/
     (issues_type f = Some ISSUE_304 /\ message f = Some MSG_304 /\
      suggestion f = Some SUG_304)).
Proof.
  intros uni_alnum unit f Hf. rewrite findings_of_scan in Hf.
  destruct (in_collect _ _ _ Hf) as (m & issue & msg & sug & -> & _ & Hrule).
  do 6 (split; [reflexivity|]).
  destruct Hrule as [(-> & -> & -> & _)|(-> & -> & -> & _)]; simpl; auto.
Qed.

Lemma findings_carry_unit_and_rule_witness :
  prog_name
    (make_finding (example_unit 5 (Some text_cr)) text_cr 8 19
       ISSUE_304 MSG_304 SUG_304) = Some (str "ZPROG") /\
  blockname
    (make_finding (example_unit 5 (Some text_cr)) text_cr 8 19
       ISSUE_304 MSG_304 SUG_304) = Some (str "RUN").
Proof.
  assert (Hin : In (make_finding (example_unit 5 (Some text_cr)) text_cr 8 19
                      ISSUE_304 MSG_304 SUG_304)
                   (findings_of
                      (scan_unit no_alnum (example_unit 5 (Some text_cr)))))
    by (vm_compute; left; reflexivity).
  destruct (findings_carry_unit_and_rule no_alnum _ _ Hin)
    as (H1 & _ & _ & H4 & _).
  split; [exact H1 | exact H4].
Defined.

(** X4. Scanning is idempotent: a scanned unit that is scanned again
    comes back unchanged. *)
Theorem scan_unit_idempotent :
  forall (uni_alnum : N -> bool) (unit : Unit),
    scan_unit uni_alnum (scan_unit uni_alnum unit)
    = scan_unit uni_alnum unit.
Proof. intros uni_alnum unit. apply scan_unit_again. Qed.

(** X5. The batch endpoint works unit by unit: the result for two
    batches put together is the two results put together, it is never
    longer than its input, and a batch result given to the endpoint
    again comes back unchanged. *)
Theorem scan_array_composes :
  forall (uni_alnum : N -> bool) (units1 units2 : list Unit),
    scan_array uni_alnum (units1 ++ units2)
    = scan_array uni_alnum units1 ++ scan_array uni_alnum units2 /\
    List.length (scan_array uni_alnum units1) <= List.length units1 /\
    scan_array uni_alnum (scan_array uni_alnum units1)
    = scan_array uni_alnum units1.
Proof.
  intros uni_alnum units1 units2. rewrite !scan_array_eq. split; [|split].
  - now rewrite map_app, filter_app.
  - rewrite <- (length_map (scan_unit uni_alnum) units1).
    apply filter_length_le.
  - induction units1 as [|u l IH]; [reflexivity|]. simpl.
    destruct (has_findings (scan_unit uni_alnum u)) eqn:E; [|exact IH].
    simpl. rewrite scan_unit_again, E. now rewrite IH.
Qed.

(** X6. A scanned unit has findings exactly when its code holds a
    word-bounded occurrence of the phrase of Rule 303 or of the keyword
    of Rule 304; the batch endpoint keeps the scan of a unit of its
    input exactly in that case, whatever findings the unit carried. *)
Theorem kept_iff_occurrence :
  forall (uni_alnum : N -> bool) (unit : Unit),
    (findings (scan_unit uni_alnum unit) = None <->
     forall p, ~ occurs303 uni_alnum (src_of unit) p /\
               ~ occurs304 uni_alnum (src_of unit) p)
    /\
    (forall units : list Unit,
        In unit units ->
        (In (scan_unit uni_alnum unit) (scan_array uni_alnum units) <->
         exists p, occurs303 uni_alnum (src_of unit) p \/
                   occurs304 uni_alnum (src_of unit) p)).
Proof.
  intros uni_alnum unit. split.
  - rewrite findings_scan. split.
    + intros H p.
      assert (Hnil : collect uni_alnum unit = [])
        by (destruct (collect uni_alnum unit); [reflexivity | discriminate]).
      apply collect_nil_iff in Hnil. destruct Hnil as [H3 H4]. auto.
    + intros H.
      assert (Hnil : collect uni_alnum unit = []).
      { apply collect_nil_iff. split; intros p; apply (H p). }
      now rewrite Hnil.
  - intros units Hin. rewrite scan_array_eq, filter_In, <- has_findings_iff.
    split; [tauto|]. intros H. split; [|exact H].
    apply in_map. exact Hin.
Qed.

(** ** [extract_line] at any position *)

Lemma clip_le (s : pystr) (i : Z) : clip s i <= List.length s.
Proof.
  unfold clip, len. destruct (i <? 0)%Z eqn:E.
  - apply Z.ltb_lt in E. lia.
  - lia.
Qed.

Lemma clip_clip (s : pystr) (i : Z) :
  clip s (Z.of_nat (clip s i)) = clip s i.
Proof. rewrite clip_of_nat. pose proof (clip_le s i). lia. Qed.

Lemma extract_line_clip (text : pystr) (pos : Z) :
  extract_line text pos = extract_line text (Z.of_nat (clip text pos)).
Proof.
  unfold extract_line, rfind, PyStr.find, slice.
  now rewrite !clip_clip.
Qed.

Lemma extract_line_free (text : pystr) (pos : Z) :
  ~ In LF (extract_line text pos).
Proof.
  assert (H : physical_line text (clip text pos) (extract_line text pos)).
  { rewrite extract_line_clip. apply extract_line_is_physical, clip_le. }
  apply (physical_line_free H).
Qed.

(** X7. For every integer position, negative or beyond the end
    included, [extract_line] returns the physical line around the
    position as Python clips it into the text. The result never holds a
    line feed, so the escape of [make_finding] leaves it as it is: the
    snippet of a finding is the source line itself. *)
Theorem extract_line_any_position :
  forall (text : pystr) (pos : Z),
    physical_line text (clip text pos) (extract_line text pos) /\
    ~ In LF (extract_line text pos) /\
    (forall (unit : Unit) (end_ : Z) (issue msg sug : pystr),
        snippet (make_finding unit text pos end_ issue msg sug)
        = Some (extract_line text pos)).
Proof.
  intros text pos.
  assert (H : physical_line text (clip text pos) (extract_line text pos)).
  { rewrite extract_line_clip. apply extract_line_is_physical, clip_le. }
  split; [exact H|]. split; [apply (physical_line_free H)|].
  intros unit end_ issue msg sug. simpl. f_equal.
  apply replace_free. apply (physical_line_free H).
Qed.

(** ** Lines of findings *)

Lemma count_firstn_le (text : pystr) (p q : nat) :
  p <= q ->
  count_occ N.eq_dec (firstn p text) LF
  <= count_occ N.eq_dec (firstn q text) LF.
Proof.
  intros Hpq. rewrite <- (firstn_skipn p (firstn q text)), count_occ_app.
  rewrite firstn_firstn. replace (Nat.min p q) with p by lia. lia.
Qed.

Lemma count_firstn_total (text : pystr) (p : nat) :
  count_occ N.eq_dec (firstn p text) LF <= count_occ N.eq_dec text LF.
Proof.
  rewrite <- (firstn_skipn p text) at 2. rewrite count_occ_app. lia.
Qed.

Lemma line_in_block_mono (text : pystr) (p q : nat) :
  p <= q -> (line_in_block text p <= line_in_block text q)%Z.
Proof.
  intros H. unfold line_in_block.
  pose proof (count_firstn_le text H). lia.
Qed.

Lemma starts_at_make_finding (unit : Unit) (src : pystr) (s : nat) (e : Z)
    (issue msg sug : pystr) :
  starts_at (make_finding unit src (Z.of_nat s) e issue msg sug)
  = (start_line unit + line_in_block src s)%Z.
Proof.
  unfold starts_at.
  now rewrite (proj1 (make_finding_lines unit src s e issue msg sug)).
Qed.

Lemma sorted_lines (unit : Unit) (src : pystr) (issue msg sug : pystr)
    (l : list (nat * nat)) :
  StronglySorted (fun a b : nat * nat => fst a <= fst b) l ->
  StronglySorted (fun f g => (starts_at f <= starts_at g)%Z)
    (List.map (fun m => make_finding unit src (Z.of_nat (fst m))
                          (Z.of_nat (snd m)) issue msg sug) l).
Proof.
  induction 1 as [|m l Hl IH Hm]; simpl; constructor; [exact IH|].
  apply Forall_forall. intros f Hf. apply in_map_iff in Hf.
  destruct Hf as (m' & <- & Hm'). rewrite !starts_at_make_finding.
  rewrite Forall_forall in Hm. specialize (Hm m' Hm').
  pose proof (line_in_block_mono src Hm). lia.
Qed.

(** X8. The line of every finding lies between [start_line + 1] and
    [start_line + 1] plus the number of line feeds of the code, and the
    findings of each rule come in non-decreasing line order. *)
Theorem finding_lines_bounded_and_ordered :
  forall (uni_alnum : N -> bool) (unit : Unit),
    (forall f,
        In f (findings_of (scan_unit uni_alnum unit)) ->
        starting_line f = Some (starts_at f) /\
        (start_line unit + 1 <= starts_at f
         <= start_line unit + 1
            + Z.of_nat (count_occ N.eq_dec (src_of unit) LF))%Z)
    /\
    StronglySorted (fun f g => (starts_at f <= starts_at g)%Z)
      (of_rule ISSUE_303 (findings_of (scan_unit uni_alnum unit)))
    /\
    StronglySorted (fun f g => (starts_at f <= starts_at g)%Z)
      (of_rule ISSUE_304 (findings_of (scan_unit uni_alnum unit))).
Proof.
  intros uni_alnum unit. split; [|split].
  - intros f Hf. rewrite findings_of_scan in Hf.
    destruct (in_collect _ _ _ Hf) as (m & issue & msg & sug & -> & _ & _).
    rewrite starts_at_make_finding.
    split; [apply make_finding_lines|].
    unfold line_in_block.
    pose proof (count_firstn_total (src_of unit) (fst m)). lia.
  - rewrite of_rule303_scan. apply sorted_lines, finditer_sorted.
  - rewrite of_rule304_scan. apply sorted_lines, finditer_sorted.
Qed.

Lemma physical_line_same_line (text : pystr) (p q : nat) (line : pystr) :
  physical_line text p line ->
  p <= q <= List.length text ->
  line_in_block text p = line_in_block text q ->
  physical_line text q line.
Proof.
  intros (before & after & E & Hb & Ha & Hfree & Hp) Hq Hline.
  exists before, after. repeat split; auto; try lia.
  destruct (Nat.le_gt_cases q (List.length before + List.length line))
    as [Hle|Hgt]; [exact Hle|]. exfalso.
  assert (Hcp : count_occ N.eq_dec (firstn p text) LF
                = count_occ N.eq_dec before LF).
  { rewrite E, firstn_app, count_occ_app.
    rewrite (firstn_all2 before) by lia.
    rewrite (proj1 (count_occ_not_In N.eq_dec
                      (firstn (p - List.length before) (line ++ after)) LF));
      [lia|].
    rewrite firstn_app. intros Hin. apply in_app_or in Hin.
    destruct Hin as [Hin|Hin].
    - revert Hin. now apply not_in_firstn.
    - replace (p - List.length before - List.length line) with 0 in Hin
        by lia. destruct Hin. }
  destruct Ha as [->|[a ->]].
  { rewrite E, !length_app in Hq. simpl in Hq. lia. }
  assert (Hcq : count_occ N.eq_dec before LF + 1
                <= count_occ N.eq_dec (firstn q text) LF).
  { pose proof (@count_firstn_le text
                  (List.length before + List.length line + 1) q) as Hm.
    assert (Hpre : firstn (List.length before + List.length line + 1) text
                   = before ++ line ++ [LF]).
    { rewrite E.
      replace (before ++ line ++ LF :: a)
        with ((before ++ line ++ [LF]) ++ a)
        by (now rewrite <- !app_assoc).
      rewrite firstn_app.
      rewrite firstn_all2 by (rewrite !length_app; simpl; lia).
      replace (List.length before + List.length line + 1
               - List.length (before ++ line ++ [LF])) with 0
        by (rewrite !length_app; simpl; lia).
      simpl. apply app_nil_r. }
    rewrite Hpre, !count_occ_app in Hm.
    rewrite (proj1 (count_occ_not_In N.eq_dec line LF) Hfree) in Hm.
    simpl in Hm. destruct (N.eq_dec LF LF); [|congruence]. lia. }
  unfold line_in_block in Hline. lia.
Qed.

Lemma same_line_same_extract (text : pystr) (p q : nat) :
  p <= List.length text -> q <= List.length text ->
  line_in_block text p = line_in_block text q ->
  extract_line text (Z.of_nat p) = extract_line text (Z.of_nat q).
Proof.
  intros Hp Hq Hline.
  destruct (Nat.le_ge_cases p q) as [Hpq|Hqp].
  - pose proof (extract_line_is_physical text Hp) as H.
    symmetry. apply extract_line_physical.
    apply (physical_line_same_line H); [lia | exact Hline].
  - pose proof (extract_line_is_physical text Hq) as H.
    apply extract_line_physical.
    apply (physical_line_same_line H); [lia | now symmetry].
Qed.

(** X9. Two findings of a scan that start on the same line have the same
    snippet, whichever rules and matches they come from. *)
Theorem same_line_same_snippet :
  forall (uni_alnum : N -> bool) (unit : Unit) (f g : Finding),
    In f (findings_of (scan_unit uni_alnum unit)) ->
    In g (findings_of (scan_unit uni_alnum unit)) ->
    starting_line f = starting_line g ->
    snippet f = snippet g.
Proof.
  intros uni_alnum unit f g Hf Hg Hline.
  rewrite findings_of_scan in Hf, Hg.
  destruct (in_collect _ _ _ Hf) as (m & i & ms & sg & -> & Hm & _).
  destruct (in_collect _ _ _ Hg) as (m' & i' & ms' & sg' & -> & Hm' & _).
  rewrite (proj1 (make_finding_lines unit (src_of unit) (fst m) _ i ms sg)),
    (proj1 (make_finding_lines unit (src_of unit) (fst m') _ i' ms' sg'))
    in Hline.
  assert (Heq : line_in_block (src_of unit) (fst m)
                = line_in_block (src_of unit) (fst m'))
    by (injection Hline; lia).
  simpl. now rewrite (@same_line_same_extract _ _ _ Hm Hm' Heq).
Qed.

Lemma same_line_same_snippet_witness :
  snippet
    (make_finding (example_unit 3 (Some (str "BREAK-POINT. break-point.")))
       (str "BREAK-POINT. break-point.") 0 11 ISSUE_304 MSG_304 SUG_304)
  = snippet
    (make_finding (example_unit 3 (Some (str "BREAK-POINT. break-point.")))
       (str "BREAK-POINT. break-point.") 13 24 ISSUE_304 MSG_304 SUG_304).
Proof.
  apply (same_line_same_snippet no_alnum
           (example_unit 3 (Some (str "BREAK-POINT. break-point.")))).
  - vm_compute. left. reflexivity.
  - vm_compute. right. left. reflexivity.
  - reflexivity.
Defined.

(** X10. The spans the two patterns hand to [make_finding] lie inside
    the code, are at least as long as the phrase (18 characters) or the
    keyword (11 characters), and do not overlap: each starts at or after
    the end of the one before. *)
Theorem match_spans_in_range :
  forall (uni_alnum : N -> bool) (text : pystr),
    (forall m,
        In m (finditer uni_alnum SET_EXT_CHECK_RE text) ->
        fst m + 18 <= snd m <= List.length text) /\
    (forall m,
        In m (finditer uni_alnum BREAKPOINT_RE text) ->
        fst m + 11 <= snd m <= List.length text) /\
    StronglySorted (fun a b : nat * nat => snd a <= fst b)
      (finditer uni_alnum SET_EXT_CHECK_RE text) /\
    StronglySorted (fun a b : nat * nat => snd a <= fst b)
      (finditer uni_alnum BREAKPOINT_RE text).
Proof.
  intros uni_alnum text. split; [|split; [|split]].
  - intros [s e] Hm.
    destruct (@reported303 uni_alnum _ _ _ Hm)
      as (pre & ph & post & -> & <- & <- & Hph & _).
    pose proof (phrase303_length Hph). rewrite !length_app. simpl. lia.
  - intros [s e] Hm.
    destruct (@reported304 uni_alnum _ _ _ Hm)
      as (pre & kw & post & -> & <- & Hkw & _ & _ & Hend).
    pose proof (ci_eq_length Hkw) as L. simpl in L.
    rewrite !length_app. simpl.
    destruct Hend as [->|(ws & tok & rest & -> & _ & _ & ->)].
    + lia.
    + rewrite !length_app. lia.
  - apply (@finditer_disjoint uni_alnum _ (@advance303 uni_alnum)).
  - apply (@finditer_disjoint uni_alnum _ (@advance304 uni_alnum)).
Qed.

(** X11. Moving a unit down by [d] lines moves the starting and the
    ending line of every finding by [d] and changes nothing else: no
    finding appears or disappears, and order, issue types and snippets
    stay. *)
Theorem moving_a_unit_moves_its_findings :
  forall (uni_alnum : N -> bool) (d : Z) (unit : Unit),
    findings_of (scan_unit uni_alnum (move_unit d unit))
    = List.map (move_finding d) (findings_of (scan_unit uni_alnum unit)).
Proof.
  intros uni_alnum d unit. rewrite !findings_of_scan, !collect_eq.
  change (src_of (move_unit d unit)) with (src_of unit).
  rewrite map_app, !map_map. f_equal; apply map_ext; intros m;
    unfold make_finding, move_finding, move_unit; simpl; do 2 f_equal; lia.
Qed.

(** ** Texts changed character by character *)

Lemma flat_map_map_commute (A B : Type) (h : A -> A) (k : B -> B)
    (f : A -> list B) (l : list A) :
  (forall x, f (h x) = List.map k (f x)) ->
  flat_map f (List.map h l) = List.map k (flat_map f l).
Proof.
  intros H. induction l as [|x l IH]; simpl; [reflexivity|].
  now rewrite H, IH, map_app.
Qed.

Section Recase.

Variable uni_alnum : N -> bool.
Variable g : N -> N.
Hypothesis g_space : forall x, is_space (g x) = is_space x.
Hypothesis g_word : forall x, is_word uni_alnum (g x) = is_word uni_alnum x.
Hypothesis g_lit :
  forall a x, lit_ignorecase a (g x) = lit_ignorecase a x.
Hypothesis g_lf : forall x, N.eqb (g x) LF = N.eqb x LF.

Lemma eat_map (p : N -> bool) (c : cursor) :
  (forall x, p (g x) = p x) ->
  eat p (map_cursor g c) = List.map (map_cursor g) (eat p c).
Proof.
  intros Hp. unfold eat, map_cursor. destruct c as [pos prev rest]. simpl.
  destruct rest as [|x rest]; simpl; [reflexivity|].
  rewrite Hp. now destruct (p x).
Qed.

Lemma at_boundary_map (c : cursor) :
  at_boundary uni_alnum (map_cursor g c) = at_boundary uni_alnum c.
Proof.
  unfold at_boundary, map_cursor. destruct c as [pos prev rest]. simpl.
  f_equal.
  - destruct prev; simpl; [apply g_word | reflexivity].
  - destruct rest; simpl; [reflexivity | apply g_word].
Qed.

Lemma rounds_map (body : cursor -> list cursor) (n : nat) :
  (forall c, body (map_cursor g c) = List.map (map_cursor g) (body c)) ->
  forall c,
    rounds body n (map_cursor g c)
    = List.map (map_cursor g) (rounds body n c).
Proof.
  intros Hbody. induction n as [|n IH]; intros c; [reflexivity|].
  simpl. rewrite Hbody.
  apply flat_map_map_commute. intros c1. cbv beta.
  rewrite map_app. simpl. f_equal.
  destruct (c_pos c <? c_pos c1); [apply IH | reflexivity].
Qed.

Lemma ends_map (r : regex) :
  forall c,
    ends uni_alnum r (map_cursor g c)
    = List.map (map_cursor g) (ends uni_alnum r c).
Proof.
  induction r as [| a | | | | r1 IH1 r2 IH2 | r1 IH1 | r1 IH1]; intros c.
  - reflexivity.
  - apply eat_map. intros x. apply g_lit.
  - simpl. rewrite at_boundary_map.
    now destruct (at_boundary uni_alnum c).
  - apply eat_map, g_space.
  - apply eat_map, g_word.
  - cbn [ends]. rewrite IH1. now apply flat_map_map_commute.
  - cbn [ends]. replace (List.length (c_rest (map_cursor g c)))
      with (List.length (c_rest c)) by (simpl; now rewrite length_map).
    apply rounds_map. exact IH1.
  - cbn [ends]. rewrite IH1, map_app. reflexivity.
Qed.

Lemma find_map_cursor (pos : nat) (l : list cursor) :
  List.find (fun e' => negb (c_pos e' =? pos)) (List.map (map_cursor g) l)
  = option_map (map_cursor g)
      (List.find (fun e' => negb (c_pos e' =? pos)) l).
Proof.
  induction l as [|e l IH]; simpl; [reflexivity|].
  destruct (negb (c_pos e =? pos)); [reflexivity | exact IH].
Qed.

Lemma finditer_from_map (r : regex) :
  forall (rest : pystr) (skip pos : nat) (prev : option N),
    finditer_from uni_alnum r skip pos (option_map g prev) (List.map g rest)
    = finditer_from uni_alnum r skip pos prev rest.
Proof.
  induction rest as [|x rest IH]; intros skip pos prev.
  - simpl. destruct skip; [|reflexivity].
    change (Cursor pos (option_map g prev) [])
      with (map_cursor g (Cursor pos prev [])).
    rewrite ends_map.
    destruct (ends uni_alnum r (Cursor pos prev [])) as [|e more];
      [reflexivity|].
    simpl. rewrite find_map_cursor.
    now destruct (List.find (fun e' => negb (c_pos e' =? pos)) more).
  - simpl. destruct skip; [|apply (IH skip (S pos) (Some x))].
    change (Cursor pos (option_map g prev) (g x :: List.map g rest))
      with (map_cursor g (Cursor pos prev (x :: rest))).
    rewrite ends_map.
    destruct (ends uni_alnum r (Cursor pos prev (x :: rest))) as [|e more].
    + apply (IH 0 (S pos) (Some x)).
    + simpl. rewrite find_map_cursor.
      destruct (List.find (fun e' => negb (c_pos e' =? pos)) more); simpl;
        now rewrite !(IH _ (S pos) (Some x)).
Qed.

Lemma finditer_map (r : regex) (text : pystr) :
  finditer uni_alnum r (List.map g text) = finditer uni_alnum r text.
Proof. apply (finditer_from_map r text 0 0 None). Qed.

Lemma clip_map (s : pystr) (i : Z) : clip (List.map g s) i = clip s i.
Proof. unfold clip, len. now rewrite length_map. Qed.

Lemma slice_map (s : pystr) (a b : Z) :
  slice (List.map g s) a b = List.map g (slice s a b).
Proof.
  unfold slice. rewrite !clip_map. now rewrite skipn_map, firstn_map.
Qed.

Lemma index_of_map (s : pystr) :
  index_of LF (List.map g s) = index_of LF s.
Proof.
  induction s as [|x s IH]; simpl; [reflexivity|].
  now rewrite g_lf, IH.
Qed.

Lemma last_index_of_map (s : pystr) :
  last_index_of LF (List.map g s) = last_index_of LF s.
Proof.
  induction s as [|x s IH]; simpl; [reflexivity|].
  now rewrite g_lf, IH.
Qed.

Lemma count_map (s : pystr) :
  count_occ N.eq_dec (List.map g s) LF = count_occ N.eq_dec s LF.
Proof.
  induction s as [|x s IH]; simpl; [reflexivity|].
  pose proof (g_lf x) as H.
  destruct (N.eq_dec (g x) LF) as [E|E]; destruct (N.eq_dec x LF) as [E'|E'];
    try (now rewrite IH).
  - apply N.eqb_eq in E. rewrite H in E. apply N.eqb_eq in E. congruence.
  - apply N.eqb_eq in E'. rewrite <- H in E'. apply N.eqb_eq in E'.
    congruence.
Qed.

Lemma rfind_map (s : pystr) (lo hi : Z) :
  rfind (List.map g s) LF lo hi = rfind s LF lo hi.
Proof.
  unfold rfind. now rewrite slice_map, last_index_of_map, clip_map.
Qed.

Lemma find_map (s : pystr) (start : Z) :
  PyStr.find (List.map g s) LF start = PyStr.find s LF start.
Proof.
  unfold PyStr.find. now rewrite clip_map, skipn_map, index_of_map.
Qed.

Lemma extract_line_map (text : pystr) (pos : Z) :
  extract_line (List.map g text) pos = List.map g (extract_line text pos).
Proof.
  unfold extract_line. rewrite rfind_map, find_map.
  unfold len. rewrite length_map. apply slice_map.
Qed.

Lemma replace_map (s : pystr) :
  ~ In LF s ->
  replace (List.map g s) LF [BACKSLASH; 110%N]
  = List.map g (replace s LF [BACKSLASH; 110%N]).
Proof.
  intros H. rewrite (@replace_free s LF _ H). apply replace_free.
  intros Hin. apply in_map_iff in Hin. destruct Hin as (x & Hx & Hin).
  apply N.eqb_eq in Hx. rewrite g_lf in Hx. apply N.eqb_eq in Hx.
  congruence.
Qed.

Lemma make_finding_map (unit : Unit) (c : option pystr) (src : pystr)
    (s : nat) (e : Z) (issue msg sug : pystr) :
  make_finding (with_code c unit) (List.map g src) (Z.of_nat s) e
    issue msg sug
  = map_snippet g (make_finding unit src (Z.of_nat s) e issue msg sug).
Proof.
  unfold make_finding, map_snippet. cbn -[replace extract_line count].
  f_equal.
  - unfold count. now rewrite slice_map, count_map.
  - unfold count. now rewrite slice_map, count_map.
  - cbn. f_equal. rewrite extract_line_map. apply replace_map.
    apply extract_line_free.
Qed.

End Recase.

(** ** Letter case of the code *)

Ltac n_cases :=
  repeat match goal with
         | |- context [(?a <=? ?b)%N] => destruct (N.leb_spec a b)
         | |- context [(?a <? ?b)%N] => destruct (N.ltb_spec a b)
         | |- context [(?a =? ?b)%N] => destruct (N.eqb_spec a b)
         | H : context [(?a <=? ?b)%N] |- _ => destruct (N.leb_spec a b)
         end;
  simpl in *; try reflexivity; try discriminate; try lia.

Lemma letter_not_space (x : N) :
  (65 <= x <= 122)%N -> is_space x = false.
Proof.
  intros H. destruct (is_space x) eqn:E; [|reflexivity].
  unfold is_space in E. apply existsb_exists in E.
  destruct E as (y & Hin & Hy). apply N.eqb_eq in Hy. subst y.
  simpl in Hin. repeat (destruct Hin as [<-|Hin]; [lia|]). destruct Hin.
Qed.

Lemma lower_range (x : N) : ascii_lower x = true -> (97 <= x <= 122)%N.
Proof. unfold ascii_lower. n_cases. Qed.

Lemma upper_range (x : N) : ascii_upper x = true -> (65 <= x <= 90)%N.
Proof. unfold ascii_upper. n_cases. Qed.

Lemma tolower_upper_ascii (x : N) :
  unicode_tolower (upper_ascii x) = unicode_tolower x.
Proof.
  unfold upper_ascii. destruct (ascii_lower x) eqn:E; [|reflexivity].
  apply lower_range in E.
  unfold unicode_tolower, ascii_upper, I_DOT, KELVIN. n_cases.
Qed.

Lemma tolower_lower_ascii (x : N) :
  unicode_tolower (lower_ascii x) = unicode_tolower x.
Proof.
  unfold lower_ascii. destruct (ascii_upper x) eqn:E; [|reflexivity].
  apply upper_range in E.
  unfold unicode_tolower, ascii_upper, I_DOT, KELVIN. n_cases.
Qed.

Section UpperLower.

Variable uni_alnum : N -> bool.

Lemma upper_ascii_space (x : N) : is_space (upper_ascii x) = is_space x.
Proof.
  unfold upper_ascii. destruct (ascii_lower x) eqn:E; [|reflexivity].
  apply lower_range in E. rewrite !letter_not_space by lia. reflexivity.
Qed.

Lemma lower_ascii_space (x : N) : is_space (lower_ascii x) = is_space x.
Proof.
  unfold lower_ascii. destruct (ascii_upper x) eqn:E; [|reflexivity].
  apply upper_range in E. rewrite !letter_not_space by lia. reflexivity.
Qed.

Lemma upper_letter_word (x : N) :
  (65 <= x <= 90)%N -> is_word uni_alnum x = true.
Proof.
  intros H. unfold is_word, ascii_upper.
  replace (x <? 128)%N with true by (symmetry; apply N.ltb_lt; lia).
  replace (65 <=? x)%N with true by (symmetry; apply N.leb_le; lia).
  replace (x <=? 90)%N with true by (symmetry; apply N.leb_le; lia).
  reflexivity.
Qed.

Lemma lower_letter_word (x : N) :
  (97 <= x <= 122)%N -> is_word uni_alnum x = true.
Proof.
  intros H. unfold is_word, ascii_lower.
  replace (x <? 128)%N with true by (symmetry; apply N.ltb_lt; lia).
  replace (97 <=? x)%N with true by (symmetry; apply N.leb_le; lia).
  replace (x <=? 122)%N with true by (symmetry; apply N.leb_le; lia).
  simpl. now rewrite orb_true_r.
Qed.

Lemma upper_ascii_word (x : N) :
  is_word uni_alnum (upper_ascii x) = is_word uni_alnum x.
Proof.
  unfold upper_ascii. destruct (ascii_lower x) eqn:E; [|reflexivity].
  apply lower_range in E.
  rewrite upper_letter_word by lia. now rewrite lower_letter_word.
Qed.

Lemma lower_ascii_word (x : N) :
  is_word uni_alnum (lower_ascii x) = is_word uni_alnum x.
Proof.
  unfold lower_ascii. destruct (ascii_upper x) eqn:E; [|reflexivity].
  apply upper_range in E.
  rewrite lower_letter_word by lia. now rewrite upper_letter_word.
Qed.

Lemma upper_ascii_lit (a x : N) :
  lit_ignorecase a (upper_ascii x) = lit_ignorecase a x.
Proof.
  unfold lit_ignorecase. rewrite tolower_upper_ascii.
  destruct (unicode_iscased a) eqn:Ha; [reflexivity|]. simpl.
  unfold upper_ascii. destruct (ascii_lower x) eqn:E; [|reflexivity].
  apply lower_range in E.
  unfold unicode_iscased, ascii_upper, ascii_lower in Ha. n_cases.
Qed.

Lemma lower_ascii_lit (a x : N) :
  lit_ignorecase a (lower_ascii x) = lit_ignorecase a x.
Proof.
  unfold lit_ignorecase. rewrite tolower_lower_ascii.
  destruct (unicode_iscased a) eqn:Ha; [reflexivity|]. simpl.
  unfold lower_ascii. destruct (ascii_upper x) eqn:E; [|reflexivity].
  apply upper_range in E.
  unfold unicode_iscased, ascii_upper, ascii_lower in Ha. n_cases.
Qed.

Lemma upper_ascii_lf (x : N) : N.eqb (upper_ascii x) LF = N.eqb x LF.
Proof.
  unfold upper_ascii, LF. destruct (ascii_lower x) eqn:E; [|reflexivity].
  apply lower_range in E. n_cases.
Qed.

Lemma lower_ascii_lf (x : N) : N.eqb (lower_ascii x) LF = N.eqb x LF.
Proof.
  unfold lower_ascii, LF. destruct (ascii_upper x) eqn:E; [|reflexivity].
  apply upper_range in E. n_cases.
Qed.

Lemma scan_recased (g : N -> N) (unit : Unit) :
  (forall x, is_space (g x) = is_space x) ->
  (forall x, is_word uni_alnum (g x) = is_word uni_alnum x) ->
  (forall a x, lit_ignorecase a (g x) = lit_ignorecase a x) ->
  (forall x, N.eqb (g x) LF = N.eqb x LF) ->
  findings_of
    (scan_unit uni_alnum
       (with_code (Some (List.map g (src_of unit))) unit))
  = List.map (map_snippet g) (findings_of (scan_unit uni_alnum unit)).
Proof.
  intros Hs Hw Hl Hlf. rewrite !findings_of_scan, !collect_eq.
  change (src_of (with_code (Some (List.map g (src_of unit))) unit))
    with (List.map g (src_of unit)).
  rewrite !(@finditer_map uni_alnum g Hs Hw Hl).
  rewrite map_app, !map_map.
  f_equal; apply map_ext; intros m; now apply make_finding_map.
Qed.

End UpperLower.

(** X12. The letter case of the code does not matter to a scan: with the
    ASCII letters of the code turned to upper case, or to lower case,
    the findings are the same ones, in the same order, with the same
    rules and lines; only the snippets follow the case of the code. *)
Theorem letter_case_does_not_matter :
  forall (uni_alnum : N -> bool) (unit : Unit),
    findings_of
      (scan_unit uni_alnum
         (with_code (Some (List.map upper_ascii (src_of unit))) unit))
    = List.map (map_snippet upper_ascii)
        (findings_of (scan_unit uni_alnum unit))
    /\
    findings_of
      (scan_unit uni_alnum
         (with_code (Some (List.map lower_ascii (src_of unit))) unit))
    = List.map (map_snippet lower_ascii)
        (findings_of (scan_unit uni_alnum unit)).
Proof.
  intros uni_alnum unit. split.
  - apply scan_recased.
    + apply upper_ascii_space.
    + apply upper_ascii_word.
    + apply upper_ascii_lit.
    + apply upper_ascii_lf.
  - apply scan_recased.
    + apply lower_ascii_space.
    + apply lower_ascii_word.
    + apply lower_ascii_lit.
    + apply lower_ascii_lf.
Qed.
